(** * DQN policy (stable_baselines3/dqn/policies.py): a shallow embedding

    The file embeds the two classes of [policies.py], [Q_Net] and
    [DQNPolicy], method by method, and proves properties of them.

    Conventions.
    - Python floats (epsilon, Q-values, learning rates, weights) are
      rationals [Q]; only their order and equality are used, never rounding.
    - A tensor is a shape and the row-major list of its entries.  Integer
      tensors (action indices) hold integer-valued rationals.
    - A method that mutates [self] returns the new object; a method that
      consumes randomness runs in the monad [M] over the [World], which
      holds the three generators the code draws from (numpy's global one,
      the action space's own one, torch's one for weight initialisation).
    - Exceptions are values [Raise e]; what was drawn before a raise stays
      drawn. *)

From Stdlib Require Import List ZArith QArith Lia Bool Arith.
From Stdlib Require String.
Import ListNotations.
Import String.StringSyntax.
Delimit Scope string_scope with string.

Set Implicit Arguments.

(** ** Exceptions and the two monads *)

Inductive exn : Type :=
| AttributeError
| IndexError
| RuntimeError
| ValueError
| ConfigurationError
| UnsupportedSpaceError.

Inductive result (A : Type) : Type :=
| Ok (a : A)
| Raise (e : exn).

Arguments Ok {A} a.
Arguments Raise {A} e.

Definition rbind {A B} (r : result A) (f : A -> result B) : result B :=
  match r with
  | Ok a => f a
  | Raise e => Raise e
  end.

(** The three random generators: an infinite supply each, and a cursor. *)
Record World : Type := mkWorld {
  np_bits : nat -> Z;      (* numpy global generator: raw 53-bit draws *)
  np_pos : nat;
  space_bits : nat -> Z;   (* the action space's np_random *)
  space_pos : nat;
  torch_vals : nat -> Q;   (* torch generator, used by layer initialisation *)
  torch_pos : nat
}.

Definition M (A : Type) : Type := World -> result A * World.

Definition ret {A} (a : A) : M A := fun w => (Ok a, w).

Definition raise {A} (e : exn) : M A := fun w => (Raise e, w).

Definition bind {A B} (c : M A) (f : A -> M B) : M B :=
  fun w =>
    match c w with
    | (Ok a, w') => f a w'
    | (Raise e, w') => (Raise e, w')
    end.

Definition lift {A} (r : result A) : M A := fun w => (r, w).

Declare Scope py_scope.
Delimit Scope py_scope with py.
Notation "x <- c1 ;; c2" := (bind c1 (fun x => c2))
  (at level 61, c1 at next level, right associativity) : py_scope.
Notation "x <~ c1 ;; c2" := (rbind c1 (fun x => c2))
  (at level 61, c1 at next level, right associativity) : py_scope.
Open Scope py_scope.

Fixpoint mapM {A B} (f : A -> M B) (l : list A) : M (list B) :=
  match l with
  | [] => ret []
  | x :: tl => y <- f x ;; ys <- mapM f tl ;; ret (y :: ys)
  end.

(** ** Comparisons on floats *)

Definition Qlt_bool (x y : Q) : bool := negb (Qle_bool y x).

(** ** numpy: [np.random.rand()] *)

Module Numpy.

Definition two53 : positive := 9007199254740992.

(** One double in [0,1): a 53-bit integer over 2^53. *)
Definition rand_value (w : World) : Q :=
  Qmake (np_bits w (np_pos w) mod Zpos two53) two53.

Definition rand : M Q :=
  fun w =>
    (Ok (rand_value w),
     mkWorld (np_bits w) (S (np_pos w)) (space_bits w) (space_pos w)
             (torch_vals w) (torch_pos w)).

End Numpy.

(** ** torch: tensors, [th.tensor], [reshape], [argmax] *)

Module Torch.

Record Tensor : Type := mkTensor {
  shape : list nat;
  data : list Q
}.

Definition ndim (t : Tensor) : nat := length (shape t).

Definition prod (dims : list nat) : nat := fold_right Nat.mul 1%nat dims.

Definition numel (t : Tensor) : nat := prod (shape t).

(** [th.tensor(x)] for a Python int. *)
Definition scalar (a : Z) : Tensor := mkTensor [] [inject_Z a].

(** [th.tensor([t1, ..., tB])]: the elements stacked along a new leading
    dimension (the elements here all come from one space, so they share
    their shape). *)
Definition tensor (ts : list Tensor) : Tensor :=
  mkTensor (length ts :: match ts with [] => [] | t :: _ => shape t end)
           (flat_map data ts).

(** [t.reshape(d)] with a single target dimension: [-1] is inferred, any
    other value must be the number of elements. *)
Definition reshape (t : Tensor) (d : Z) : result Tensor :=
  if (d =? -1)%Z then Ok (mkTensor [numel t] (data t))
  else if (d =? Z.of_nat (numel t))%Z then Ok (mkTensor [numel t] (data t))
  else Raise RuntimeError.

(** Index of the first maximal entry, scanning left to right: the running
    best is replaced only by a strictly larger entry. *)
Fixpoint argmax_from (best_i : nat) (best : Q) (i : nat) (l : list Q) : nat :=
  match l with
  | [] => best_i
  | x :: tl =>
      if Qlt_bool best x then argmax_from i x (S i) tl
      else argmax_from best_i best (S i) tl
  end.

Definition argmax_list (l : list Q) : nat :=
  match l with
  | [] => 0%nat
  | x :: tl => argmax_from 0 x 1 tl
  end.

(** [th.argmax(t, 1)]: reduces dimension 1.  For shape [B; A; rest] the
    entry (b, a, r) sits at offset (b*A + a)*R + r with R = prod rest. *)
Definition argmax (t : Tensor) : result Tensor :=
  match shape t with
  | B :: A :: rest =>
      if (A =? 0)%nat then Raise IndexError
      else
        let R := prod rest in
        Ok (mkTensor (B :: rest)
              (flat_map (fun b =>
                 map (fun r =>
                        inject_Z (Z.of_nat (argmax_list
                          (map (fun a => nth ((b * A + a) * R + r) (data t) 0)
                               (seq 0 A)))))
                     (seq 0 R))
                 (seq 0 B)))
  | _ => Raise IndexError
  end.

(** The rows of a row-major list: [rows] chunks of [n] entries. *)
Fixpoint chunks (n rows : nat) (l : list Q) : list (list Q) :=
  match rows with
  | O => []
  | S r => firstn n l :: chunks n r (skipn n l)
  end.

Definition dot (u v : list Q) : Q :=
  fold_right Qplus 0 (map (fun p => fst p * snd p) (combine u v)).

End Torch.

Import Torch.

(** ** torch.nn: the modules [create_mlp] chains, and the state dict *)

Module Nn.

Inductive Layer : Type :=
| Linear (in_features out_features : nat) (weight bias : Tensor)
| Activation (f : Q -> Q).

(** [n] fresh values of the torch generator. *)
Definition draws (n : nat) : M (list Q) :=
  fun w =>
    (Ok (map (torch_vals w) (seq (torch_pos w) n)),
     mkWorld (np_bits w) (np_pos w) (space_bits w) (space_pos w)
             (torch_vals w) (torch_pos w + n)).

(** [nn.Linear(i, o)]: a randomly initialised weight of shape [o; i] and
    bias of shape [o]. *)
Definition Linear_init (i o : nat) : M Layer :=
  wt <- draws (o * i) ;;
  b <- draws o ;;
  ret (Linear i o (mkTensor [o; i] wt) (mkTensor [o] b)).

Definition linear_row (i o : nat) (weight bias : Tensor) (row : list Q) : list Q :=
  map (fun p => dot row (fst p) + snd p)
      (combine (chunks i o (data weight)) (data bias)).

(** A layer applied to a tensor; [Linear] acts on the last dimension. *)
Definition Layer_forward (l : Layer) (x : Tensor) : result Tensor :=
  match l with
  | Activation f => Ok (mkTensor (shape x) (map f (data x)))
  | Linear i o weight bias =>
      match rev (shape x) with
      | [] => Raise RuntimeError
      | last :: lead_rev =>
          if (last =? i)%nat
          then Ok (mkTensor (rev lead_rev ++ [o])
                     (flat_map (linear_row i o weight bias)
                               (chunks i (prod lead_rev) (data x))))
          else Raise RuntimeError
      end
  end.

(** [nn.Sequential] over the layers, applied to [x]. *)
Fixpoint Sequential_forward (layers : list Layer) (x : Tensor) : result Tensor :=
  match layers with
  | [] => Ok x
  | l :: tl => y <~ Layer_forward l x ;; Sequential_forward tl y
  end.

(** [nn.Flatten()]: keeps dimension 0 and merges the others; a tensor
    with fewer than two dimensions has no dimension 1 to start from. *)
Definition Flatten (x : Tensor) : result Tensor :=
  match shape x with
  | B :: d :: rest => Ok (mkTensor [B; prod (d :: rest)] (data x))
  | _ => Raise IndexError
  end.

(** Parameter names: ["<index>.weight"] and ["<index>.bias"], the index
    being the module's position in the [Sequential]. *)
Inductive Field : Type := Weight | Bias.

Definition Key : Type := (nat * Field)%type.

Definition Key_eqb (k1 k2 : Key) : bool :=
  (fst k1 =? fst k2)%nat &&
  match snd k1, snd k2 with
  | Weight, Weight | Bias, Bias => true
  | _, _ => false
  end.

Definition StateDict : Type := list (Key * Tensor).

Fixpoint state_dict_from (i : nat) (layers : list Layer) : StateDict :=
  match layers with
  | [] => []
  | Linear _ _ weight bias :: tl =>
      ((i, Weight), weight) :: ((i, Bias), bias) :: state_dict_from (S i) tl
  | Activation _ :: tl => state_dict_from (S i) tl
  end.

Definition state_dict (layers : list Layer) : StateDict :=
  state_dict_from 0 layers.

Fixpoint lookup (k : Key) (sd : StateDict) : option Tensor :=
  match sd with
  | [] => None
  | (k', v) :: tl => if Key_eqb k k' then Some v else lookup k tl
  end.

Definition shape_eqb (s1 s2 : list nat) : bool :=
  if list_eq_dec Nat.eq_dec s1 s2 then true else false.

(** What [load_state_dict] (strict) checks: every own parameter is in
    the incoming dict with the same shape, and the dict has no other key. *)
Definition loadable (own sd : StateDict) : bool :=
  forallb (fun kv => match lookup (fst kv) sd with
                     | Some v => shape_eqb (shape (snd kv)) (shape v)
                     | None => false
                     end) own
  && forallb (fun kv => match lookup (fst kv) own with
                        | Some _ => true
                        | None => false
                        end) sd.

Fixpoint assign_from (i : nat) (layers : list Layer) (sd : StateDict) : list Layer :=
  match layers with
  | [] => []
  | Linear a b weight bias :: tl =>
      Linear a b
        (match lookup (i, Weight) sd with Some v => v | None => weight end)
        (match lookup (i, Bias) sd with Some v => v | None => bias end)
      :: assign_from (S i) tl sd
  | Activation f :: tl => Activation f :: assign_from (S i) tl sd
  end.

(** [module.load_state_dict(sd)]: copies the values in, or raises. *)
Definition load_state_dict (layers : list Layer) (sd : StateDict) : result (list Layer) :=
  if loadable (state_dict layers) sd
  then Ok (assign_from 0 layers sd)
  else Raise RuntimeError.

(** [th.optim.Adam(params, lr=lr)].  A parameter is referred to by the
    sub-module that owns it and its name there. *)
Inductive Owner : Type := Online | Target.

Definition ParamRef : Type := (Owner * Key)%type.

Record Adam : Type := mkAdam {
  param_groups : list ParamRef;
  lr : Q
}.

Definition Adam_init (params : list ParamRef) (rate : Q) : result Adam :=
  match params with
  | [] => Raise ValueError
  | _ => if Qlt_bool rate 0 then Raise ValueError else Ok (mkAdam params rate)
  end.

End Nn.

Import Nn.

(** ** gym: the spaces *)

Module Gym.

Inductive Space : Type :=
| Discrete (n : Z)
| Box (box_shape : list nat).

(** The attribute [space.n]: only a [Discrete] space has it. *)
Definition n (s : Space) : result Z :=
  match s with
  | Discrete k => Ok k
  | Box _ => Raise AttributeError
  end.

Definition advance (k : nat) (w : World) : World :=
  mkWorld (np_bits w) (np_pos w) (space_bits w) (space_pos w + k)
          (torch_vals w) (torch_pos w).

(** [space.sample()]: for [Discrete k] one integer in [0, k), which
    numpy refuses to draw when [k <= 0]; for a [Box] one array of its
    shape (its entries are left uninterpreted). *)
Definition sample (s : Space) : M Tensor :=
  match s with
  | Discrete k =>
      if (0 <? k)%Z
      then fun w => (Ok (scalar (space_bits w (space_pos w) mod k)), advance 1 w)
      else raise ValueError
  | Box sh =>
      fun w => (Ok (mkTensor sh (map (fun i => inject_Z (space_bits w i))
                                     (seq (space_pos w) (prod sh)))),
                advance (prod sh) w)
  end.

End Gym.

(** ** stable_baselines3.common: what [policies.py] imports *)

Module Common.

(** [nn.ReLU], the default [activation_fn]. *)
Definition relu (x : Q) : Q := if Qle_bool x 0 then 0 else x.

(** Modelled from the spec: the body of [create_mlp]
    (stable_baselines3/common/policies.py, not among the sources).  The
    spec has it chain affine layers
    [input_dim -> net_arch[0] -> ... -> net_arch[-1] -> output_dim], with
    the activation after every hidden layer and none after the last. *)
Fixpoint mlp_layers (input_dim : nat) (net_arch : list nat) (output_dim : nat)
         (activation_fn : Q -> Q) : M (list Layer) :=
  match net_arch with
  | [] => l <- Linear_init input_dim output_dim ;; ret [l]
  | h :: tl =>
      l <- Linear_init input_dim h ;;
      rest <- mlp_layers h tl output_dim activation_fn ;;
      ret (l :: Activation activation_fn :: rest)
  end.

Definition is_empty (net_arch : list Z) : bool :=
  match net_arch with [] => true | _ => false end.

(** Modelled from the spec: the architectures network construction
    refuses.  The spec names a non-positive dimension ([action_dim <= 0]
    in particular) and an empty [net_arch] where the policy does not
    support one; whether it does is the parameter
    [empty_arch_supported]. *)
Definition invalid_arch (empty_arch_supported : bool)
           (input_dim output_dim : Z) (net_arch : list Z) : bool :=
  (output_dim <=? 0)%Z
  || (input_dim <=? 0)%Z
  || existsb (fun h => (h <=? 0)%Z) net_arch
  || (is_empty net_arch && negb empty_arch_supported).

(** Modelled from the spec: [create_mlp] is defined in
    stable_baselines3/common/policies.py, which is not among the sources.
    The spec has network construction fail with [ConfigurationError] on
    an invalid architecture and build the affine stack otherwise. *)
Definition create_mlp (empty_arch_supported : bool)
           (input_dim output_dim : Z) (net_arch : list Z)
           (activation_fn : Q -> Q) : M (list Layer) :=
  if invalid_arch empty_arch_supported input_dim output_dim net_arch
  then raise ConfigurationError
  else mlp_layers (Z.to_nat input_dim) (map Z.to_nat net_arch)
                  (Z.to_nat output_dim) activation_fn.

End Common.

Import Common.

(** ** class Q_Net *)

Module Q_Net.

Record t : Type := mk {
  (* set by BasePolicy.__init__ *)
  observation_space : Gym.Space;
  action_space : Gym.Space;
  device : String.string;
  (* set by Q_Net.__init__ *)
  net_arch : list Z;
  activation_fn : Q -> Q;
  features_extractor : Tensor -> result Tensor;
  features_dim : Z;
  action_dim : Z;
  normalize_images : bool;
  epsilon : Q;
  q_net : list Layer
}.

Section Methods.

Variable empty_arch_supported : bool.

Definition __init__ (observation_space : Gym.Space) (action_space : Gym.Space)
           (features_extractor : Tensor -> result Tensor)
           (features_dim : Z) (action_dim : Z)
           (net_arch : option (list Z)) (device : String.string)
           (activation_fn : Q -> Q) (epsilon : Q)
           (normalize_images : bool) : M t :=
  let net_arch := match net_arch with
                  | None => [64; 64]%Z
                  | Some a => a
                  end in
  q_net <- create_mlp empty_arch_supported features_dim action_dim
                      net_arch activation_fn ;;
  ret (mk observation_space action_space device net_arch activation_fn
          features_extractor features_dim action_dim normalize_images
          epsilon q_net).

End Methods.

(** Modelled from the spec: [extract_features] is inherited from
    [BasePolicy] (stable_baselines3/common/policies.py, not among the
    sources); the spec has it apply the feature extractor to the
    observation. *)
Definition extract_features (self : t) (obs : Tensor) : result Tensor :=
  features_extractor self obs.

Definition forward (self : t) (obs : Tensor) : result Tensor :=
  features <~ extract_features self obs ;;
  Sequential_forward (q_net self) features.

Definition predict (self : t) (observation : Tensor) (deterministic : bool)
  : M Tensor :=
  explore <- (if negb deterministic
              then u <- Numpy.rand ;; ret (Qlt_bool u (epsilon self))
              else ret false) ;;
  if explore then
    if (1 <? ndim observation)%nat then
      samples <- mapM (fun _ => Gym.sample (action_space self))
                      (seq 0 (hd 0%nat (shape observation))) ;;
      lift (reshape (tensor samples) 1)
    else
      a <- Gym.sample (action_space self) ;;
      lift (reshape a 1)
  else
    lift (features <~ extract_features self observation ;;
          q_val <~ Sequential_forward (q_net self) features ;;
          action <~ argmax q_val ;;
          reshape action (-1)).

(** [module.to(device)] moves the storage and changes no value. *)
Definition to (self : t) (d : String.string) : t := self.

Definition set_q_net (self : t) (layers : list Layer) : t :=
  mk (observation_space self) (action_space self) (device self)
     (net_arch self) (activation_fn self) (features_extractor self)
     (features_dim self) (action_dim self) (normalize_images self)
     (epsilon self) layers.

Definition set_epsilon (self : t) (e : Q) : t :=
  mk (observation_space self) (action_space self) (device self)
     (net_arch self) (activation_fn self) (features_extractor self)
     (features_dim self) (action_dim self) (normalize_images self)
     e (q_net self).

(** The only sub-module with parameters is the [Sequential]. *)
Definition state_dict (self : t) : StateDict := Nn.state_dict (q_net self).

Definition load_state_dict (self : t) (sd : StateDict) : result t :=
  layers <~ Nn.load_state_dict (q_net self) sd ;;
  Ok (set_q_net self layers).

End Q_Net.

(** ** class DQNPolicy *)

Module DQNPolicy.

(** The dict [self.net_args]: the keyword arguments of [Q_Net]. *)
Record NetArgs : Type := mkNetArgs {
  na_observation_space : Gym.Space;
  na_action_space : Gym.Space;
  na_features_extractor : Tensor -> result Tensor;
  na_features_dim : Z;
  na_action_dim : Z;
  na_net_arch : list Z;
  na_epsilon : Q;
  na_activation_fn : Q -> Q;
  na_normalize_images : bool;
  na_device : String.string
}.

Record t : Type := mk {
  (* set by BasePolicy.__init__ *)
  observation_space : Gym.Space;
  action_space : Gym.Space;
  device : String.string;
  (* set by DQNPolicy.__init__ *)
  net_arch : list Z;
  activation_fn : Q -> Q;
  features_extractor : Tensor -> result Tensor;
  features_dim : Z;
  action_dim : Z;
  normalize_images : bool;
  epsilon : Q;
  net_args : NetArgs;
  log_std_init : Q;
  q_net : option Q_Net.t;
  q_net_target : option Q_Net.t;
  (* set by _build *)
  optimizer : option Adam
}.

Definition set_q_net (self : t) (v : option Q_Net.t) : t :=
  mk (observation_space self) (action_space self) (device self)
     (net_arch self) (activation_fn self) (features_extractor self)
     (features_dim self) (action_dim self) (normalize_images self)
     (epsilon self) (net_args self) (log_std_init self)
     v (q_net_target self) (optimizer self).

Definition set_q_net_target (self : t) (v : option Q_Net.t) : t :=
  mk (observation_space self) (action_space self) (device self)
     (net_arch self) (activation_fn self) (features_extractor self)
     (features_dim self) (action_dim self) (normalize_images self)
     (epsilon self) (net_args self) (log_std_init self)
     (q_net self) v (optimizer self).

Definition set_optimizer (self : t) (v : option Adam) : t :=
  mk (observation_space self) (action_space self) (device self)
     (net_arch self) (activation_fn self) (features_extractor self)
     (features_dim self) (action_dim self) (normalize_images self)
     (epsilon self) (net_args self) (log_std_init self)
     (q_net self) (q_net_target self) v.

Definition set_epsilon (self : t) (e : Q) : t :=
  mk (observation_space self) (action_space self) (device self)
     (net_arch self) (activation_fn self) (features_extractor self)
     (features_dim self) (action_dim self) (normalize_images self)
     e (net_args self) (log_std_init self)
     (q_net self) (q_net_target self) (optimizer self).

(** [self.parameters()]: the parameters of every registered sub-module,
    in registration order.  [features_extractor] is a [Flatten] and has
    none; [q_net] and [q_net_target] are registered when [_build]
    assigns them (before that the attributes hold [None]). *)
Definition owned (o : Owner) (net : option Q_Net.t) : list ParamRef :=
  match net with
  | Some n => map (fun kv => (o, fst kv)) (Q_Net.state_dict n)
  | None => []
  end.

Definition parameters (self : t) : list ParamRef :=
  owned Online (q_net self) ++ owned Target (q_net_target self).

Section Methods.

(** The parts of the package that [policies.py] uses and that are not
    among the sources: [get_obs_dim] of
    stable_baselines3/common/preprocessing.py (the width of the
    flattened observation), and whether [create_mlp] accepts an empty
    [net_arch]. *)
Variable get_obs_dim : Gym.Space -> Z.
Variable empty_arch_supported : bool.

Definition make_q_net (self : t) : M Q_Net.t :=
  let a := net_args self in
  net <- Q_Net.__init__ empty_arch_supported
           (na_observation_space a) (na_action_space a)
           (na_features_extractor a) (na_features_dim a)
           (na_action_dim a) (Some (na_net_arch a)) (na_device a)
           (na_activation_fn a) (na_epsilon a) (na_normalize_images a) ;;
  ret (Q_Net.to net (device self)).

Definition _build (self : t) (lr_schedule : Q -> Q) : M t :=
  online <- make_q_net self ;;
  let self := set_q_net self (Some online) in
  target <- make_q_net self ;;
  let self := set_q_net_target self (Some target) in
  target' <- lift (Q_Net.load_state_dict target (Q_Net.state_dict online)) ;;
  let self := set_q_net_target self (Some target') in
  opt <- lift (Adam_init (parameters self) (lr_schedule 1)) ;;
  ret (set_optimizer self (Some opt)).

Definition __init__ (observation_space : Gym.Space) (action_space : Gym.Space)
           (lr_schedule : Q -> Q) (net_arch : option (list Z))
           (device : String.string) (use_sde : bool)
           (activation_fn : Q -> Q) (log_std_init : Q) (epsilon : Q)
           (normalize_images : bool) : M t :=
  let net_arch := match net_arch with
                  | None => [256; 256]%Z
                  | Some a => a
                  end in
  let features_extractor := Flatten in
  let features_dim := get_obs_dim observation_space in
  action_dim <- lift (Gym.n action_space) ;;
  let net_args :=
    mkNetArgs observation_space action_space features_extractor
              features_dim action_dim net_arch epsilon activation_fn
              normalize_images device in
  let self :=
    mk observation_space action_space device net_arch activation_fn
       features_extractor features_dim action_dim normalize_images
       epsilon net_args log_std_init None None None in
  _build self lr_schedule.

(** Assigning to an attribute of [None] raises [AttributeError]. *)
Definition update_epsilon (self : t) (epsilon : Q) : result t :=
  match q_net_target self with
  | None => Raise AttributeError
  | Some target =>
      let self := set_q_net_target self (Some (Q_Net.set_epsilon target epsilon)) in
      match q_net self with
      | None => Raise AttributeError
      | Some online =>
          let self := set_q_net self (Some (Q_Net.set_epsilon online epsilon)) in
          Ok (set_epsilon self epsilon)
      end
  end.

Definition _predict (self : t) (observation : Tensor) (deterministic : bool)
  : M Tensor :=
  match q_net self with
  | None => raise AttributeError
  | Some online => Q_Net.predict online observation deterministic
  end.

Definition q_predict (self : t) (observation : Tensor) (deterministic : bool)
  : M Tensor :=
  match q_net self with
  | None => raise AttributeError
  | Some online => Q_Net.predict online observation deterministic
  end.

(** Modelled from the spec: [predict] is inherited from [BasePolicy]
    (stable_baselines3/common/policies.py, not among the sources); the
    spec has it always delegate to the online network's action
    selection, which is what [_predict] does. *)
Definition predict (self : t) (observation : Tensor) (deterministic : bool)
  : M Tensor :=
  _predict self observation deterministic.

Definition q_forward (self : t) (obs : Tensor) : M Tensor :=
  predict self obs false.

End Methods.



End DQNPolicy.

(** ** Predicates and transitions the theorems are stated with *)

(** [i] is the lowest index at which [row] attains its maximum. *)
Definition is_first_max (row : list Q) (i : nat) : Prop :=
  (i < length row)%nat
  /\ (forall j, (j < length row)%nat -> nth j row 0 <= nth i row 0)
  /\ (forall j, (j < i)%nat -> nth j row 0 < nth i row 0).

(** A 0-dimensional tensor holding an integer of [0, k): what sampling
    a [Discrete k] space returns. *)
Definition is_action (k : Z) (t : Tensor) : Prop :=
  shape t = [] /\ exists a, (0 <= a < k)%Z /\ data t = [inject_Z a].

(** Two layers with parameters of the same shapes. *)
Definition layer_like (l1 l2 : Layer) : bool :=
  match l1, l2 with
  | Linear _ _ w1 b1, Linear _ _ w2 b2 =>
      shape_eqb (shape w1) (shape w2) && shape_eqb (shape b1) (shape b2)
  | Activation _, Activation _ => true
  | _, _ => false
  end.

Fixpoint layers_like (a b : list Layer) : bool :=
  match a, b with
  | [], [] => true
  | x :: a', y :: b' => layer_like x y && layers_like a' b'
  | _, _ => false
  end.

(** Both networks are built and have the same architecture. *)
Definition same_arch (p : DQNPolicy.t) : bool :=
  match DQNPolicy.q_net p, DQNPolicy.q_net_target p with
  | Some online, Some target =>
      layers_like (Q_Net.q_net online) (Q_Net.q_net target)
  | _, _ => false
  end.

(** The three copies of epsilon agree. *)
Definition eps_inv (p : DQNPolicy.t) : Prop :=
  exists online target,
    DQNPolicy.q_net p = Some online
    /\ DQNPolicy.q_net_target p = Some target
    /\ Q_Net.epsilon online = DQNPolicy.epsilon p
    /\ Q_Net.epsilon target = DQNPolicy.epsilon p.

(** The operations a caller can run on a constructed policy, and the
    policy and world they leave behind.  An operation that raises leaves
    the policy as it was.  [HardSync] is line 157 of [_build] run by the
    caller on the public attributes,
    [policy.q_net_target.load_state_dict(policy.q_net.state_dict())]. *)
Inductive Op : Type :=
| UpdateEpsilon (x : Q)
| MakeQNet
| QForward (obs : Tensor)
| QPredict (obs : Tensor) (deterministic : bool)
| Predict (obs : Tensor) (deterministic : bool)
| HardSync.

Definition run (empty_arch_supported : bool) (op : Op) (p : DQNPolicy.t) (w : World)
  : DQNPolicy.t * World :=
  match op with
  | UpdateEpsilon x =>
      match DQNPolicy.update_epsilon p x with
      | Ok p' => (p', w)
      | Raise _ => (p, w)
      end
  | MakeQNet => (p, snd (DQNPolicy.make_q_net empty_arch_supported p w))
  | QForward obs => (p, snd (DQNPolicy.q_forward p obs w))
  | QPredict obs d => (p, snd (DQNPolicy.q_predict p obs d w))
  | Predict obs d => (p, snd (DQNPolicy.predict p obs d w))
  | HardSync =>
      match DQNPolicy.q_net p, DQNPolicy.q_net_target p with
      | Some online, Some target =>
          match Q_Net.load_state_dict target (Q_Net.state_dict online) with
          | Ok target' => (DQNPolicy.set_q_net_target p (Some target'), w)
          | Raise _ => (p, w)
          end
      | _, _ => (p, w)
      end
  end.

Fixpoint run_all (empty_arch_supported : bool) (ops : list Op)
         (p : DQNPolicy.t) (w : World) : DQNPolicy.t * World :=
  match ops with
  | [] => (p, w)
  | op :: tl =>
      let (p', w') := run empty_arch_supported op p w in
      run_all empty_arch_supported tl p' w'
  end.

(** The policy [DQNPolicy.__init__] returns over [Discrete n]: the online
    network holds the layers [ls1], the target network the layers [ls2]
    after the state dict of [ls1] was loaded into them. *)
Definition built (os : Gym.Space) (fd : Z) (arch' : list Z)
           (dev : String.string) (af : Q -> Q) (log_std_init eps : Q)
           (ni : bool) (n : Z) (ls1 ls2 : list Layer) (opt : Adam)
  : DQNPolicy.t :=
  let args := DQNPolicy.mkNetArgs os (Gym.Discrete n) Flatten fd n arch' eps
                                  af ni dev in
  DQNPolicy.mk os (Gym.Discrete n) dev arch' af Flatten fd n ni eps args
    log_std_init
    (Some (Q_Net.mk os (Gym.Discrete n) dev arch' af Flatten fd n ni eps ls1))
    (Some (Q_Net.mk os (Gym.Discrete n) dev arch' af Flatten fd n ni eps
                    (assign_from 0 ls2 (Nn.state_dict ls1))))
    (Some opt).

(** [w'] is [w] after draws from the torch generator only: numpy's
    generator and the action space's are where they were. *)
Definition torch_draws_only (w w' : World) : Prop :=
  np_bits w' = np_bits w
  /\ np_pos w' = np_pos w
  /\ space_bits w' = space_bits w
  /\ space_pos w' = space_pos w
  /\ torch_vals w' = torch_vals w
  /\ (torch_pos w <= torch_pos w')%nat.

(** ** Concrete instances *)

Module Examples.

(** A world whose three generators count upwards. *)
Definition w0 : World :=
  mkWorld (fun i => Z.of_nat i) 0 (fun i => (Z.of_nat i + 7)%Z) 0
          (fun i => inject_Z (Z.of_nat i)) 0.

Definition ident (x : Q) : Q := x.

(** A network over four actions whose only layer ignores its input and
    outputs its bias, [0.1; 0.9; 0.9; 0.2]. *)
Definition tie_net (eps : Q) : Q_Net.t :=
  Q_Net.mk (Gym.Box [1%nat]) (Gym.Discrete 4) String.EmptyString [] ident
           Flatten 1 4 true eps
           [Linear 1 4 (mkTensor [4%nat; 1%nat] [0; 0; 0; 0])
                   (mkTensor [4%nat] [1 # 10; 9 # 10; 9 # 10; 2 # 10])].

Definition obs1 : Tensor := mkTensor [1%nat; 1%nat] [5 # 1].

(** A batch of two observations. *)
Definition obs2 : Tensor := mkTensor [2%nat; 1%nat] [5 # 1; 6 # 1].

Definition obs_dim (s : Gym.Space) : Z :=
  match s with
  | Gym.Box sh => Z.of_nat (prod sh)
  | Gym.Discrete _ => 1
  end.

Definition lr_const (progress : Q) : Q := 1 # 1000.

(** [DQNPolicy(Box(3), Discrete(4), lr, net_arch=[2], epsilon=e)]. *)
Definition policy (e : Q) : M DQNPolicy.t :=
  DQNPolicy.__init__ obs_dim true (Gym.Box [3%nat]) (Gym.Discrete 4)
                     lr_const (Some [2%Z]) String.EmptyString false ident
                     0 e true.

(** The policy that construction returns from [w0], with epsilon 0.05. *)
Definition policy0 : DQNPolicy.t :=
  match fst (policy (5 # 100) w0) with
  | Ok p => p
  | Raise _ =>
      built (Gym.Box [3%nat]) 3 [2%Z] String.EmptyString ident 0 (5 # 100)
            true 4 [] [] (mkAdam [] 0)
  end.

(** [policy0] after [update_epsilon(0.5)]. *)
Definition policy1 : DQNPolicy.t :=
  match DQNPolicy.update_epsilon policy0 (1 # 2) with
  | Ok p => p
  | Raise _ => policy0
  end.

(** A second network over four actions, with other weights than
    [tie_net]. *)
Definition other_net (eps : Q) : Q_Net.t :=
  Q_Net.mk (Gym.Box [1%nat]) (Gym.Discrete 4) String.EmptyString [] ident
           Flatten 1 4 true eps
           [Linear 1 4 (mkTensor [4%nat; 1%nat] [1; 0; 0; 0])
                   (mkTensor [4%nat] [3; 2; 1; 0])].

(** A network whose feature extractor passes the observation through,
    and a single unbatched observation. *)
Definition raw_net : Q_Net.t :=
  Q_Net.mk (Gym.Box [1%nat]) (Gym.Discrete 4) String.EmptyString [] ident
           (fun x => Ok x) 1 4 true 0
           [Linear 1 4 (mkTensor [4%nat; 1%nat] [0; 0; 0; 0])
                   (mkTensor [4%nat] [1 # 10; 9 # 10; 9 # 10; 2 # 10])].

Definition obs_flat : Tensor := mkTensor [1%nat] [5 # 1].

(** A batch of two observations of the width [policy0] expects. *)
Definition obs3 : Tensor :=
  mkTensor [2%nat; 3%nat] [1; 2; 3; 4; 5; 6].

(** One observation of that width, as a batch of one. *)
Definition obs3_one : Tensor := mkTensor [1%nat; 3%nat] [1; 2; 3].

(** One unbatched observation of that width. *)
Definition obs3_flat : Tensor := mkTensor [3%nat] [1; 2; 3].



(** The same over a continuous action space. *)
Definition policy_box : M DQNPolicy.t :=
  DQNPolicy.__init__ obs_dim true (Gym.Box [3%nat]) (Gym.Box [2%nat])
                     lr_const (Some [2%Z]) String.EmptyString false ident
                     0 (5 # 100) true.

End Examples.

(** * Proofs *)

(** ** The monads *)

Lemma bind_Ok {A B} {c : M A} (f : A -> M B) {w a w1} :
  c w = (Ok a, w1) -> bind c f w = f a w1.
Proof. intros H. unfold bind. rewrite H. reflexivity. Qed.

Lemma bind_Raise {A B} {c : M A} (f : A -> M B) {w e w1} :
  c w = (Raise e, w1) -> bind c f w = (Raise e, w1).
Proof. intros H. unfold bind. rewrite H. reflexivity. Qed.

Lemma bind_ret_Ok {A B} {c : M A} (g : A -> B) {w a w1} :
  c w = (Ok a, w1) -> bind c (fun x => ret (g x)) w = (Ok (g a), w1).
Proof. intros H. unfold bind. rewrite H. reflexivity. Qed.

Lemma bind_ret_id {A} (c : M A) (w : World) :
  bind c (fun x => ret x) w = c w.
Proof. unfold bind, ret. destruct (c w) as [[a|e] w1]; reflexivity. Qed.

(** ** Comparisons *)

Lemma Qlt_bool_true (x y : Q) : Qlt_bool x y = true <-> x < y.
Proof.
  unfold Qlt_bool. rewrite negb_true_iff. split.
  - intros H. apply Qnot_le_lt. intros Hle.
    apply Qle_bool_iff in Hle. congruence.
  - intros H. destruct (Qle_bool y x) eqn:E; [|reflexivity].
    apply Qle_bool_iff in E. exfalso. exact (Qlt_not_le _ _ H E).
Qed.

Lemma Qlt_bool_false (x y : Q) : Qlt_bool x y = false <-> y <= x.
Proof.
  unfold Qlt_bool. rewrite negb_false_iff. apply Qle_bool_iff.
Qed.

(** ** [np.random.rand] stays in [0,1) and advances its generator by one *)

Lemma rand_range (w : World) :
  0 <= Numpy.rand_value w /\ Numpy.rand_value w < 1.
Proof.
  unfold Numpy.rand_value, Qle, Qlt. simpl Qnum. simpl Qden.
  pose proof (Z.mod_pos_bound (np_bits w (np_pos w)) (Zpos Numpy.two53)
                ltac:(reflexivity)) as H.
  split; lia.
Qed.

(** ** [argmax] returns the first maximal entry *)

Lemma argmax_from_spec (l pre : list Q) (bi : nat) (best : Q) :
  (bi < length pre)%nat ->
  nth bi pre 0 = best ->
  (forall j, (j < length pre)%nat -> nth j pre 0 <= best) ->
  (forall j, (j < bi)%nat -> nth j pre 0 < best) ->
  is_first_max (pre ++ l) (argmax_from bi best (length pre) l).
Proof.
  revert pre bi best.
  induction l as [|x tl IH]; intros pre bi best Hbi Hbest Hle Hlt.
  - simpl. rewrite app_nil_r. subst best. repeat split; assumption.
  - assert (Hlen : length (pre ++ [x]) = S (length pre))
      by (rewrite length_app; simpl; lia).
    assert (Hold : forall j, (j < length pre)%nat ->
                             nth j (pre ++ [x]) 0 = nth j pre 0)
      by (intros j Hj; apply app_nth1; exact Hj).
    assert (Hnew : nth (length pre) (pre ++ [x]) 0 = x)
      by (apply nth_middle).
    replace (pre ++ x :: tl) with ((pre ++ [x]) ++ tl)
      by (rewrite <- app_assoc; reflexivity).
    simpl. destruct (Qlt_bool best x) eqn:E.
    + apply Qlt_bool_true in E.
      rewrite <- Hlen. apply IH.
      * lia.
      * exact Hnew.
      * intros j Hj. rewrite Hlen in Hj.
        destruct (Nat.eq_dec j (length pre)) as [->|Hne].
        -- rewrite Hnew. apply Qle_refl.
        -- rewrite Hold by lia. apply Qlt_le_weak.
           apply Qle_lt_trans with best; [apply Hle; lia | exact E].
      * intros j Hj. rewrite Hold by lia.
        apply Qle_lt_trans with best; [apply Hle; lia | exact E].
    + apply Qlt_bool_false in E.
      rewrite <- Hlen. apply IH.
      * lia.
      * rewrite Hold by exact Hbi. exact Hbest.
      * intros j Hj. rewrite Hlen in Hj.
        destruct (Nat.eq_dec j (length pre)) as [->|Hne].
        -- rewrite Hnew. exact E.
        -- rewrite Hold by lia. apply Hle. lia.
      * intros j Hj. rewrite Hold by lia. apply Hlt. exact Hj.
Qed.

Lemma argmax_list_spec (row : list Q) :
  row <> [] -> is_first_max row (argmax_list row).
Proof.
  destruct row as [|x tl]; [congruence|]. intros _.
  unfold argmax_list.
  change (x :: tl) with ([x] ++ tl).
  change 1%nat with (length [x]).
  apply argmax_from_spec.
  - simpl. lia.
  - reflexivity.
  - intros j Hj. simpl in Hj. assert (j = 0)%nat by lia. subst j.
    simpl. apply Qle_refl.
  - intros j Hj. lia.
Qed.

(** ** Rows of a row-major tensor *)

Lemma firstn_map_nth (n : nat) (l : list Q) :
  (n <= length l)%nat ->
  map (fun a => nth a l 0) (seq 0 n) = firstn n l.
Proof.
  revert l. induction n as [|n IH]; intros l Hn; [reflexivity|].
  destruct l as [|x tl]; [simpl in Hn; lia|].
  simpl. f_equal. rewrite <- seq_shift, map_map.
  apply IH. simpl in Hn. lia.
Qed.

Lemma nth_skipn_add (n i : nat) (l : list Q) :
  nth (n + i) l 0 = nth i (skipn n l) 0.
Proof.
  revert l. induction n as [|n IH]; intros l; [reflexivity|].
  destruct l as [|x tl]; simpl.
  - destruct i; reflexivity.
  - apply IH.
Qed.

Lemma chunks_map_nth (A B : nat) (l : list Q) :
  length l = (B * A)%nat ->
  map (fun b => map (fun a => nth (b * A + a) l 0) (seq 0 A)) (seq 0 B)
  = chunks A B l.
Proof.
  revert l. induction B as [|B IH]; intros l Hl; [reflexivity|].
  simpl. f_equal.
  - apply firstn_map_nth. simpl in Hl. lia.
  - rewrite <- seq_shift, map_map. rewrite <- (IH (skipn A l)).
    + apply map_ext. intros b. apply map_ext. intros a.
      rewrite <- nth_skipn_add. f_equal. simpl. lia.
    + rewrite length_skipn. simpl in Hl. lia.
Qed.

Lemma chunks_length (A B : nat) (l : list Q) :
  length l = (B * A)%nat ->
  forall row, In row (chunks A B l) -> length row = A.
Proof.
  revert l. induction B as [|B IH]; intros l Hl row Hin; [destruct Hin|].
  simpl in Hin. destruct Hin as [<-|Hin].
  - rewrite length_firstn. simpl in Hl. lia.
  - apply (IH (skipn A l)); [|exact Hin].
    rewrite length_skipn. simpl in Hl. lia.
Qed.

Lemma flat_map_singleton {X Y} (f : X -> Y) (l : list X) :
  flat_map (fun x => [f x]) l = map f l.
Proof. induction l as [|x tl IH]; simpl; [|rewrite IH]; reflexivity. Qed.

(** [th.argmax(q, 1)] on a [B x A] matrix: the first maximal index of
    every row. *)
Lemma argmax_matrix (B A : nat) (qdata : list Q) :
  (0 < A)%nat ->
  length qdata = (B * A)%nat ->
  argmax (mkTensor [B; A] qdata)
  = Ok (mkTensor [B]
          (map (fun row => inject_Z (Z.of_nat (argmax_list row)))
               (chunks A B qdata))).
Proof.
  intros HA Hlen.
  assert (E : (A =? 0)%nat = false) by (apply Nat.eqb_neq; lia).
  unfold argmax. simpl. rewrite E. f_equal. f_equal.
  rewrite <- (chunks_map_nth A B qdata Hlen).
  rewrite map_map.
  rewrite flat_map_singleton. apply map_ext. intros b.
  f_equal. f_equal. f_equal.
  apply map_ext. intros a. f_equal. lia.
Qed.

(** ** [Q_Net.predict] *)

Lemma predict_deterministic (net : Q_Net.t) (obs : Tensor) (w : World) :
  Q_Net.predict net obs true w
  = (q_val <~ Q_Net.forward net obs ;;
     action <~ argmax q_val ;;
     reshape action (-1), w).
Proof.
  unfold Q_Net.predict, Q_Net.forward, bind, ret, lift. simpl.
  destruct (Q_Net.extract_features net obs); reflexivity.
Qed.

(** Q-values without a batch dimension have no dimension 1 for
    [th.argmax] to reduce. *)
Lemma predict_deterministic_unbatched (net : Q_Net.t) (obs : Tensor) (w : World)
      (q : Tensor) :
  Q_Net.forward net obs = Ok q ->
  (ndim q < 2)%nat ->
  Q_Net.predict net obs true w = (Raise IndexError, w).
Proof.
  intros Hf Hq. rewrite predict_deterministic, Hf. cbn [rbind].
  unfold argmax. unfold ndim in Hq.
  destruct (shape q) as [|B [|A rest]]; simpl in Hq; try lia; reflexivity.
Qed.

(** Without exploration the stochastic call computes what the
    deterministic one does, after one draw from numpy's generator. *)
Lemma predict_exploit (net : Q_Net.t) (obs : Tensor) (w : World) :
  Q_Net.epsilon net <= Numpy.rand_value w ->
  Q_Net.predict net obs false w
  = (fst (Q_Net.predict net obs true w), snd (Numpy.rand w)).
Proof.
  intros H. apply Qlt_bool_false in H.
  unfold Q_Net.predict, bind, ret, lift. simpl. rewrite H. reflexivity.
Qed.

Lemma advance_advance (a b : nat) (w : World) :
  Gym.advance b (Gym.advance a w) = Gym.advance (a + b) w.
Proof.
  unfold Gym.advance. simpl. f_equal. lia.
Qed.

Lemma sample_discrete (k : Z) (w : World) :
  (0 < k)%Z ->
  exists t, Gym.sample (Gym.Discrete k) w = (Ok t, Gym.advance 1 w)
            /\ is_action k t.
Proof.
  intros Hk. unfold Gym.sample.
  destruct (0 <? k)%Z eqn:E; [|apply Z.ltb_ge in E; lia].
  eexists. split; [reflexivity|].
  split; [reflexivity|].
  exists (space_bits w (space_pos w) mod k)%Z. split; [|reflexivity].
  apply Z.mod_pos_bound. exact Hk.
Qed.

Lemma mapM_sample_discrete (k : Z) (l : list nat) (w : World) :
  (0 < k)%Z ->
  exists ts,
    mapM (fun _ => Gym.sample (Gym.Discrete k)) l w
    = (Ok ts, Gym.advance (length l) w)
    /\ length ts = length l
    /\ Forall (is_action k) ts.
Proof.
  intros Hk. revert w. induction l as [|x tl IH]; intros w.
  - exists []. simpl. unfold ret, Gym.advance.
    rewrite Nat.add_0_r. destruct w. simpl. auto.
  - destruct (sample_discrete w Hk) as (t & Ht & Hact).
    destruct (IH (Gym.advance 1 w)) as (ts & Hts & Hlen & Hall).
    exists (t :: ts). cbn [mapM]. unfold bind. rewrite Ht, Hts.
    unfold ret. rewrite advance_advance. simpl. auto.
Qed.

Lemma tensor_of_actions (k : Z) (ts : list Tensor) :
  Forall (is_action k) ts ->
  shape (tensor ts) = [length ts]
  /\ exists acts, data (tensor ts) = map inject_Z acts
                  /\ length acts = length ts
                  /\ Forall (fun a => (0 <= a < k)%Z) acts.
Proof.
  intros H. split.
  - destruct H as [|t tl [Hs _] _]; simpl; [reflexivity|].
    rewrite Hs. reflexivity.
  - unfold tensor. simpl data.
    induction H as [|t tl (Hs & a & Ha & Hd) _ (acts & He & Hl & Hf)].
    + exists []. simpl. auto.
    + exists (a :: acts). simpl. rewrite Hd, He, Hl. auto.
Qed.

(** The stochastic call, one step unfolded. *)
Lemma predict_stochastic (net : Q_Net.t) (obs : Tensor) (w : World) :
  Q_Net.predict net obs false w
  = if Qlt_bool (Numpy.rand_value w) (Q_Net.epsilon net)
    then if (1 <? ndim obs)%nat
         then bind (mapM (fun _ => Gym.sample (Q_Net.action_space net))
                         (seq 0 (hd 0%nat (shape obs))))
                   (fun samples => lift (reshape (tensor samples) 1))
                   (snd (Numpy.rand w))
         else bind (Gym.sample (Q_Net.action_space net))
                   (fun a => lift (reshape a 1))
                   (snd (Numpy.rand w))
    else (fst (Q_Net.predict net obs true w), snd (Numpy.rand w)).
Proof.
  unfold Q_Net.predict. cbv [negb]. unfold bind at 1. unfold bind at 1.
  cbv [Numpy.rand ret snd].
  destruct (Qlt_bool (Numpy.rand_value w) (Q_Net.epsilon net));
    [destruct (1 <? ndim obs)%nat|]; reflexivity.
Qed.

(** The exploration branch on a batch: [B] draws from the action space,
    then [reshape(1)], which only a batch of one survives. *)
Lemma predict_explore_batched (net : Q_Net.t) (obs : Tensor) (w : World)
      (k : Z) (B d : nat) (rest : list nat) :
  Numpy.rand_value w < Q_Net.epsilon net ->
  Q_Net.action_space net = Gym.Discrete k ->
  (0 < k)%Z ->
  shape obs = B :: d :: rest ->
  snd (Q_Net.predict net obs false w) = Gym.advance B (snd (Numpy.rand w))
  /\ (B <> 1%nat -> fst (Q_Net.predict net obs false w) = Raise RuntimeError)
  /\ (B = 1%nat -> exists a, (0 <= a < k)%Z
        /\ fst (Q_Net.predict net obs false w) = Ok (mkTensor [1%nat] [inject_Z a])).
Proof.
  intros Hu Hsp Hk Hsh. apply Qlt_bool_true in Hu.
  rewrite predict_stochastic, Hu, Hsp.
  replace (1 <? ndim obs)%nat with true
    by (symmetry; apply Nat.ltb_lt; unfold ndim; rewrite Hsh; simpl; lia).
  rewrite Hsh. cbn [hd].
  destruct (mapM_sample_discrete (seq 0 B) (snd (Numpy.rand w)) Hk)
    as (ts & Hts & Hlen & Hall).
  rewrite length_seq in Hts, Hlen.
  unfold bind. rewrite Hts. unfold lift. cbn [fst snd].
  destruct (tensor_of_actions Hall) as (Hshape & acts & Hdata & Hl & Hf).
  unfold reshape, numel. rewrite Hshape, Hlen. cbn [prod fold_right].
  rewrite Nat.mul_1_r.
  split; [reflexivity|]. split.
  - intros HB.
    destruct (1 =? -1)%Z eqn:E1; [discriminate E1|].
    destruct (1 =? Z.of_nat B)%Z eqn:E; [apply Z.eqb_eq in E; lia|].
    reflexivity.
  - intros ->.
    change (1 =? -1)%Z with false. change (1 =? Z.of_nat 1)%Z with true.
    cbv iota. rewrite Hdata.
    destruct acts as [|a [|a' acts']]; simpl in Hl; try lia.
    exists a. split; [|reflexivity]. inversion Hf; assumption.
Qed.

(** The exploration branch on an unbatched observation: a single draw. *)
Lemma predict_explore_unbatched (net : Q_Net.t) (obs : Tensor) (w : World)
      (k : Z) :
  Numpy.rand_value w < Q_Net.epsilon net ->
  Q_Net.action_space net = Gym.Discrete k ->
  (0 < k)%Z ->
  (ndim obs <= 1)%nat ->
  exists a, (0 <= a < k)%Z
    /\ Q_Net.predict net obs false w
       = (Ok (mkTensor [1%nat] [inject_Z a]), Gym.advance 1 (snd (Numpy.rand w))).
Proof.
  intros Hu Hsp Hk Hnd. apply Qlt_bool_true in Hu.
  rewrite predict_stochastic, Hu, Hsp.
  replace (1 <? ndim obs)%nat with false
    by (symmetry; apply Nat.ltb_ge; exact Hnd).
  destruct (sample_discrete (snd (Numpy.rand w)) Hk) as (t & Ht & Hs & a & Ha & Hd).
  unfold bind. rewrite Ht. unfold lift, reshape, numel.
  rewrite Hs, Hd. cbn. exists a. split; [exact Ha | reflexivity].
Qed.

(** Every stochastic call draws exactly once from numpy's generator, and
    a deterministic call never does. *)
Lemma sample_np_pos (sp : Gym.Space) (w : World) :
  np_pos (snd (Gym.sample sp w)) = np_pos w.
Proof.
  unfold Gym.sample. destruct sp as [k|sh]; [|reflexivity].
  destruct (0 <? k)%Z; reflexivity.
Qed.

Lemma mapM_sample_np_pos (sp : Gym.Space) (l : list nat) (w : World) :
  np_pos (snd (mapM (fun _ => Gym.sample sp) l w)) = np_pos w.
Proof.
  revert w. induction l as [|x tl IH]; intros w; [reflexivity|].
  cbn [mapM]. unfold bind.
  pose proof (sample_np_pos sp w) as Hs.
  destruct (Gym.sample sp w) as [[t|e] w2]; cbn [snd] in Hs; [|exact Hs].
  specialize (IH w2).
  destruct (mapM _ tl w2) as [[ts|e] w3]; cbn in IH |- *; congruence.
Qed.

Lemma predict_np_draws (net : Q_Net.t) (obs : Tensor) (d : bool) (w : World) :
  np_pos (snd (Q_Net.predict net obs d w))
  = if d then np_pos w else S (np_pos w).
Proof.
  destruct d.
  - rewrite predict_deterministic. reflexivity.
  - rewrite predict_stochastic.
    destruct (Qlt_bool (Numpy.rand_value w) (Q_Net.epsilon net)); [|reflexivity].
    destruct (1 <? ndim obs)%nat; unfold bind.
    + pose proof (mapM_sample_np_pos (Q_Net.action_space net)
                    (seq 0 (hd 0%nat (shape obs))) (snd (Numpy.rand w))) as H.
      destruct (mapM _ _ _) as [[ts|e] w2]; exact H.
    + pose proof (sample_np_pos (Q_Net.action_space net) (snd (Numpy.rand w))) as H.
      destruct (Gym.sample _ _) as [[t|e] w2]; exact H.
Qed.


(** ** State dicts: lookup, [load_state_dict] *)

Lemma shape_eqb_refl (s : list nat) : shape_eqb s s = true.
Proof. unfold shape_eqb. destruct (list_eq_dec Nat.eq_dec s s); congruence. Qed.

Lemma shape_eqb_eq (s1 s2 : list nat) : shape_eqb s1 s2 = true -> s1 = s2.
Proof.
  unfold shape_eqb. destruct (list_eq_dec Nat.eq_dec s1 s2); congruence.
Qed.

Lemma Key_eqb_refl (k : Key) : Key_eqb k k = true.
Proof.
  destruct k as [i f]. unfold Key_eqb. simpl.
  rewrite Nat.eqb_refl. destruct f; reflexivity.
Qed.

Lemma Key_eqb_index (k1 k2 : Key) : fst k1 <> fst k2 -> Key_eqb k1 k2 = false.
Proof.
  intros H. unfold Key_eqb.
  destruct (fst k1 =? fst k2)%nat eqn:E; [|reflexivity].
  apply Nat.eqb_eq in E. contradiction.
Qed.

Lemma state_dict_from_index (i : nat) (layers : list Layer) (kv : Key * Tensor) :
  In kv (state_dict_from i layers) -> (i <= fst (fst kv))%nat.
Proof.
  revert i. induction layers as [|l tl IH]; intros i Hin; [destruct Hin|].
  destruct l as [a b wt bs|f]; simpl in Hin.
  - destruct Hin as [<-|[<-|Hin]]; simpl; try lia.
    apply IH in Hin. lia.
  - apply IH in Hin. lia.
Qed.

Lemma lookup_skip_prefix (k : Key) (P rest : StateDict) :
  (forall kv, In kv P -> (fst (fst kv) < fst k)%nat) ->
  lookup k (P ++ rest) = lookup k rest.
Proof.
  induction P as [|[k' v] tl IH]; intros H; [reflexivity|].
  simpl. rewrite Key_eqb_index.
  - apply IH. intros kv Hin. apply H. right. exact Hin.
  - specialize (H (k', v) (or_introl eq_refl)). simpl in H. lia.
Qed.

Lemma layer_like_sym (l1 l2 : Layer) : layer_like l1 l2 = layer_like l2 l1.
Proof.
  destruct l1 as [a b w1 b1|f], l2 as [a' b' w2 b2|f']; simpl; try reflexivity.
  unfold shape_eqb.
  destruct (list_eq_dec Nat.eq_dec (shape w1) (shape w2)),
           (list_eq_dec Nat.eq_dec (shape w2) (shape w1)),
           (list_eq_dec Nat.eq_dec (shape b1) (shape b2)),
           (list_eq_dec Nat.eq_dec (shape b2) (shape b1));
    simpl; congruence.
Qed.

Lemma layers_like_sym (a b : list Layer) : layers_like a b = layers_like b a.
Proof.
  revert b. induction a as [|x a IH]; intros [|y b]; simpl; try reflexivity.
  rewrite layer_like_sym, IH. reflexivity.
Qed.

(** Every parameter of one network is found, with its shape, in the
    state dict of a network of the same architecture. *)
Lemma lookup_like (a b : list Layer) :
  layers_like a b = true ->
  forall i kv, In kv (state_dict_from i a) ->
    exists v, lookup (fst kv) (state_dict_from i b) = Some v
              /\ shape (snd kv) = shape v.
Proof.
  revert b. induction a as [|x a IH]; intros [|y b] Hl i kv Hin;
    simpl in Hl; try discriminate Hl; [destruct Hin|].
  apply andb_true_iff in Hl. destruct Hl as [Hxy Hab].
  destruct x as [n m w1 b1|f], y as [n' m' w2 b2|f'];
    simpl in Hxy; try discriminate Hxy; simpl in Hin |- *.
  - apply andb_true_iff in Hxy. destruct Hxy as [Hw Hb].
    apply shape_eqb_eq in Hw. apply shape_eqb_eq in Hb.
    destruct Hin as [<-|[<-|Hin]].
    + exists w2. simpl. rewrite Key_eqb_refl. auto.
    + exists b2. simpl. unfold Key_eqb at 1. simpl.
      rewrite Nat.eqb_refl. simpl. rewrite Key_eqb_refl. auto.
    + pose proof (state_dict_from_index _ _ _ Hin) as Hi.
      rewrite !Key_eqb_index by (simpl; lia).
      apply (IH b Hab (S i) kv Hin).
  - apply (IH b Hab (S i) kv Hin).
Qed.

Lemma loadable_like (own src : list Layer) :
  layers_like own src = true ->
  loadable (Nn.state_dict own) (Nn.state_dict src) = true.
Proof.
  intros H. unfold loadable, Nn.state_dict.
  apply andb_true_iff. split; apply forallb_forall; intros kv Hin.
  - destruct (lookup_like own src H 0 kv Hin) as (v & -> & Hs).
    rewrite Hs. apply shape_eqb_refl.
  - rewrite layers_like_sym in H.
    destruct (lookup_like src own H 0 kv Hin) as (v & -> & _). reflexivity.
Qed.

(** Loading the state dict of a network of the same architecture makes
    the state dicts equal, and keeps the architecture. *)
Lemma assign_from_like (own src : list Layer) :
  layers_like own src = true ->
  forall i P,
    (forall kv, In kv P -> (fst (fst kv) < i)%nat) ->
    state_dict_from i (assign_from i own (P ++ state_dict_from i src))
    = state_dict_from i src
    /\ layers_like src (assign_from i own (P ++ state_dict_from i src)) = true.
Proof.
  revert src. induction own as [|x own IH]; intros [|y src] Hl i P HP;
    simpl in Hl; try discriminate Hl; [split; reflexivity|].
  apply andb_true_iff in Hl. destruct Hl as [Hxy Hl].
  destruct x as [n m w1 b1|f], y as [n' m' w2 b2|f'];
    simpl in Hxy; try discriminate Hxy.
  - cbn [state_dict_from assign_from].
    assert (Hw : lookup (i, Weight)
                   (P ++ ((i, Weight), w2) :: ((i, Bias), b2)
                         :: state_dict_from (S i) src) = Some w2).
    { rewrite lookup_skip_prefix by exact HP.
      simpl. rewrite Key_eqb_refl. reflexivity. }
    assert (Hb : lookup (i, Bias)
                   (P ++ ((i, Weight), w2) :: ((i, Bias), b2)
                         :: state_dict_from (S i) src) = Some b2).
    { rewrite lookup_skip_prefix by exact HP.
      simpl. unfold Key_eqb at 1. simpl. rewrite Nat.eqb_refl. simpl.
      rewrite Key_eqb_refl. reflexivity. }
    rewrite Hw, Hb.
    specialize (IH src Hl (S i) (P ++ [((i, Weight), w2); ((i, Bias), b2)])).
    rewrite <- app_assoc in IH. simpl in IH.
    destruct IH as [IH1 IH2].
    { intros kv Hin. apply in_app_or in Hin. destruct Hin as [Hin|Hin].
      - apply HP in Hin. lia.
      - destruct Hin as [<-|[<-|[]]]; simpl; lia. }
    split.
    + cbn [state_dict_from]. rewrite IH1. reflexivity.
    + cbn [layers_like layer_like]. rewrite !shape_eqb_refl, IH2. reflexivity.
  - cbn [state_dict_from assign_from].
    destruct (IH src Hl (S i) P) as [IH1 IH2].
    { intros kv Hin. apply HP in Hin. lia. }
    split; [exact IH1|]. cbn [layers_like layer_like]. exact IH2.
Qed.

Lemma assign_from_idem (i : nat) (own : list Layer) (sd : StateDict) :
  assign_from i (assign_from i own sd) sd = assign_from i own sd.
Proof.
  revert i. induction own as [|x own IH]; intros i; [reflexivity|].
  destruct x as [n m w1 b1|f]; simpl; rewrite IH; [|reflexivity].
  destruct (lookup (i, Weight) sd), (lookup (i, Bias) sd); reflexivity.
Qed.

(** [Q_Net.load_state_dict] between networks of the same architecture. *)
Lemma load_state_dict_like (target online : Q_Net.t) :
  layers_like (Q_Net.q_net target) (Q_Net.q_net online) = true ->
  exists target',
    Q_Net.load_state_dict target (Q_Net.state_dict online) = Ok target'
    /\ Q_Net.state_dict target' = Q_Net.state_dict online
    /\ layers_like (Q_Net.q_net online) (Q_Net.q_net target') = true
    /\ Q_Net.epsilon target' = Q_Net.epsilon target
    /\ Q_Net.load_state_dict target' (Q_Net.state_dict online) = Ok target'.
Proof.
  intros H.
  destruct (@assign_from_like _ _ H 0%nat [] ltac:(intros kv []))
    as [Hsd Hlike].
  simpl app in Hsd, Hlike.
  unfold Q_Net.load_state_dict, Q_Net.state_dict, Nn.load_state_dict.
  rewrite (loadable_like _ _ H). cbn [rbind].
  eexists. split; [reflexivity|].
  unfold Nn.state_dict in *. cbn [Q_Net.q_net Q_Net.set_q_net Q_Net.epsilon].
  repeat split; try assumption.
  rewrite loadable_like.
  - cbn [rbind]. rewrite assign_from_idem. reflexivity.
  - rewrite layers_like_sym. exact Hlike.
Qed.

(** ** Network construction *)

Lemma Linear_init_eq (i o : nat) (w : World) :
  exists wt b w',
    Linear_init i o w = (Ok (Linear i o (mkTensor [o; i] wt) (mkTensor [o] b)), w').
Proof. unfold Linear_init, bind, draws, ret. simpl. eauto. Qed.

Lemma mlp_layers_ok (a : list nat) (i o : nat) (f : Q -> Q) (w : World) :
  exists ls w', mlp_layers i a o f w = (Ok ls, w').
Proof.
  revert i w. induction a as [|h tl IH]; intros i w; cbn [mlp_layers].
  - destruct (Linear_init_eq i o w) as (wt & b & w' & H).
    rewrite (bind_Ok _ H). unfold ret. eauto.
  - destruct (Linear_init_eq i h w) as (wt & b & w' & H).
    rewrite (bind_Ok _ H).
    destruct (IH h w') as (ls & w'' & H').
    rewrite (bind_Ok _ H'). unfold ret. eauto.
Qed.

(** Two runs of [mlp_layers] on the same dimensions give the same
    architecture, whatever the generator hands out. *)
Lemma mlp_layers_like (a : list nat) (i o : nat) (f : Q -> Q)
      (w1 w2 : World) (ls1 ls2 : list Layer) (w1' w2' : World) :
  mlp_layers i a o f w1 = (Ok ls1, w1') ->
  mlp_layers i a o f w2 = (Ok ls2, w2') ->
  layers_like ls1 ls2 = true.
Proof.
  revert i w1 w2 ls1 ls2 w1' w2'.
  induction a as [|h tl IH]; intros i w1 w2 ls1 ls2 w1' w2' H1 H2;
    cbn [mlp_layers] in H1, H2.
  - destruct (Linear_init_eq i o w1) as (wt1 & b1 & u1 & E1).
    destruct (Linear_init_eq i o w2) as (wt2 & b2 & u2 & E2).
    rewrite (bind_Ok _ E1) in H1. rewrite (bind_Ok _ E2) in H2.
    unfold ret in H1, H2. inversion H1. inversion H2. subst.
    simpl. rewrite !shape_eqb_refl. reflexivity.
  - destruct (Linear_init_eq i h w1) as (wt1 & b1 & u1 & E1).
    destruct (Linear_init_eq i h w2) as (wt2 & b2 & u2 & E2).
    rewrite (bind_Ok _ E1) in H1. rewrite (bind_Ok _ E2) in H2.
    destruct (mlp_layers_ok tl h o f u1) as (r1 & v1 & F1).
    destruct (mlp_layers_ok tl h o f u2) as (r2 & v2 & F2).
    rewrite (bind_Ok _ F1) in H1. rewrite (bind_Ok _ F2) in H2.
    unfold ret in H1, H2. inversion H1. inversion H2. subst.
    simpl. rewrite !shape_eqb_refl. simpl.
    eapply IH; [exact F1 | exact F2].
Qed.

Lemma mlp_layers_params (a : list nat) (i o : nat) (f : Q -> Q)
      (w w' : World) (ls : list Layer) (n : nat) :
  mlp_layers i a o f w = (Ok ls, w') -> state_dict_from n ls <> [].
Proof.
  destruct a as [|h tl]; cbn [mlp_layers]; intros H.
  - destruct (Linear_init_eq i o w) as (wt & b & u & E).
    rewrite (bind_Ok _ E) in H. unfold ret in H. inversion H. discriminate.
  - destruct (Linear_init_eq i h w) as (wt & b & u & E).
    rewrite (bind_Ok _ E) in H.
    destruct (mlp_layers_ok tl h o f u) as (r & v & F).
    rewrite (bind_Ok _ F) in H. unfold ret in H. inversion H. discriminate.
Qed.

Lemma create_mlp_cases (eas : bool) (i o : Z) (a : list Z) (f : Q -> Q) (w : World) :
  (invalid_arch eas i o a = true
   /\ create_mlp eas i o a f w = (Raise ConfigurationError, w))
  \/ (invalid_arch eas i o a = false
      /\ exists ls w', create_mlp eas i o a f w = (Ok ls, w')
                       /\ mlp_layers (Z.to_nat i) (map Z.to_nat a) (Z.to_nat o) f w
                          = (Ok ls, w')).
Proof.
  unfold create_mlp.
  destruct (invalid_arch eas i o a).
  - left. split; reflexivity.
  - right. split; [reflexivity|].
    destruct (mlp_layers_ok (map Z.to_nat a) (Z.to_nat i) (Z.to_nat o) f w)
      as (ls & w' & H).
    exists ls, w'. split; exact H.
Qed.

(** ** The forward pass of a freshly built stack *)

Lemma chunks_count (n rows : nat) (l : list Q) : length (chunks n rows l) = rows.
Proof.
  revert l. induction rows as [|r IH]; intros l; simpl; [|rewrite IH]; reflexivity.
Qed.

Lemma flat_map_length_const {X Y} (f : X -> list Y) (n : nat) (l : list X) :
  (forall x, In x l -> length (f x) = n) ->
  length (flat_map f l) = (length l * n)%nat.
Proof.
  induction l as [|x tl IH]; intros H; [reflexivity|].
  simpl. rewrite length_app, IH, H.
  - reflexivity.
  - left. reflexivity.
  - intros y Hy. apply H. right. exact Hy.
Qed.

Lemma linear_row_length (i o : nat) (weight bias : Tensor) (row : list Q) :
  length (data bias) = o ->
  length (linear_row i o weight bias row) = o.
Proof.
  intros Hb. unfold linear_row.
  rewrite length_map, length_combine, chunks_count, Hb. apply Nat.min_id.
Qed.

Lemma Linear_forward_matrix (i o : nat) (weight bias : Tensor)
      (B : nat) (x : list Q) :
  length (data bias) = o ->
  exists q,
    Layer_forward (Linear i o weight bias) (mkTensor [B; i] x)
    = Ok (mkTensor [B; o] q)
    /\ length q = (B * o)%nat.
Proof.
  intros Hb. unfold Layer_forward. cbn [shape rev app data].
  rewrite Nat.eqb_refl. eexists. split; [reflexivity|].
  rewrite (@flat_map_length_const _ _ _ o).
  - rewrite chunks_count. simpl. lia.
  - intros row _. apply linear_row_length. exact Hb.
Qed.

(** On a [B x input_dim] matrix the stack [create_mlp] builds returns a
    [B x output_dim] matrix. *)
Lemma mlp_layers_forward (a : list nat) (i o : nat) (f : Q -> Q)
      (w w' : World) (ls : list Layer) (B : nat) (x : list Q) :
  mlp_layers i a o f w = (Ok ls, w') ->
  exists q,
    Sequential_forward ls (mkTensor [B; i] x) = Ok (mkTensor [B; o] q)
    /\ length q = (B * o)%nat.
Proof.
  revert i w w' ls x. induction a as [|h tl IH]; intros i w w' ls x H;
    cbn [mlp_layers] in H.
  - unfold Linear_init, bind, draws, ret in H. inversion H. subst.
    cbn [Sequential_forward].
    destruct (@Linear_forward_matrix i o
                (mkTensor [o; i] (map (torch_vals w) (seq (torch_pos w) (o * i))))
                (mkTensor [o] (map (torch_vals w) (seq (torch_pos w + o * i) o)))
                B x) as (q & E & Hq).
    { cbn [data]. rewrite length_map, length_seq. reflexivity. }
    cbn [torch_vals torch_pos] in *. rewrite E. cbn [rbind].
    exists q. split; [reflexivity | exact Hq].
  - destruct (Linear_init_eq i h w) as (wt & b & u & E).
    pose proof E as E'.
    unfold Linear_init, bind, draws, ret in E'. inversion E'. subst wt b.
    rewrite (bind_Ok _ E) in H.
    destruct (mlp_layers_ok tl h o f u) as (r & v & F).
    rewrite (bind_Ok _ F) in H. unfold ret in H. inversion H. subst ls v.
    cbn [Sequential_forward].
    match goal with
    | |- context [Layer_forward (Linear i h ?W ?b) _] =>
        destruct (@Linear_forward_matrix i h W b B x) as (q1 & E1 & Hq1)
    end.
    { cbn [data torch_vals torch_pos]. rewrite length_map, length_seq.
      reflexivity. }
    rewrite E1. cbn [rbind Layer_forward shape data].
    apply (IH h u w' r (map f q1) F).
Qed.

(** [Q_Net.__init__]: it fails exactly where [create_mlp] does. *)
Lemma Q_Net_init_cases (eas : bool) (os sp : Gym.Space)
      (fe : Tensor -> result Tensor) (fd ad : Z) (arch : option (list Z))
      (dev : String.string) (af : Q -> Q) (eps : Q) (ni : bool) (w : World) :
  let arch' := match arch with None => [64; 64]%Z | Some a => a end in
  (invalid_arch eas fd ad arch' = true
   /\ Q_Net.__init__ eas os sp fe fd ad arch dev af eps ni w
      = (Raise ConfigurationError, w))
  \/ (invalid_arch eas fd ad arch' = false
      /\ exists ls w',
          mlp_layers (Z.to_nat fd) (map Z.to_nat arch') (Z.to_nat ad) af w
          = (Ok ls, w')
          /\ Q_Net.__init__ eas os sp fe fd ad arch dev af eps ni w
             = (Ok (Q_Net.mk os sp dev arch' af fe fd ad ni eps ls), w')).
Proof.
  intros arch'. unfold Q_Net.__init__. fold arch'.
  destruct (create_mlp_cases eas fd ad arch' af w)
    as [[Hi E]|[Hi (ls & w' & E & Hm)]].
  - left. split; [exact Hi|]. rewrite (bind_Raise _ E). reflexivity.
  - right. split; [exact Hi|]. exists ls, w'. split; [exact Hm|].
    rewrite (bind_Ok _ E). reflexivity.
Qed.

(** ** [DQNPolicy.__init__], case by case *)

Lemma init_box (god : Gym.Space -> Z) (eas : bool) (os : Gym.Space)
      (lr_schedule : Q -> Q) (arch : option (list Z)) (dev : String.string)
      (sde : bool) (af : Q -> Q) (lsi eps : Q) (ni : bool)
      (sh : list nat) (w : World) :
  DQNPolicy.__init__ god eas os (Gym.Box sh) lr_schedule arch dev sde af lsi
                     eps ni w
  = (Raise AttributeError, w).
Proof. reflexivity. Qed.

Lemma init_discrete (god : Gym.Space -> Z) (eas : bool) (os : Gym.Space)
      (lr_schedule : Q -> Q) (arch : option (list Z)) (dev : String.string)
      (sde : bool) (af : Q -> Q) (lsi eps : Q) (ni : bool)
      (n : Z) (w : World) :
  let arch' := match arch with None => [256; 256]%Z | Some a => a end in
  let fd := god os in
  let init := DQNPolicy.__init__ god eas os (Gym.Discrete n) lr_schedule arch
                                 dev sde af lsi eps ni in
  (invalid_arch eas fd n arch' = true
   /\ init w = (Raise ConfigurationError, w))
  \/ (invalid_arch eas fd n arch' = false
      /\ exists ls1 ls2 w1 w2,
          mlp_layers (Z.to_nat fd) (map Z.to_nat arch') (Z.to_nat n) af w
          = (Ok ls1, w1)
          /\ mlp_layers (Z.to_nat fd) (map Z.to_nat arch') (Z.to_nat n) af w1
             = (Ok ls2, w2)
          /\ layers_like ls2 ls1 = true
          /\ init w
             = (match Adam_init
                        (map (fun kv => (Online, fst kv)) (Nn.state_dict ls1)
                         ++ map (fun kv => (Target, fst kv))
                                (Nn.state_dict
                                   (assign_from 0 ls2 (Nn.state_dict ls1))))
                        (lr_schedule 1) with
                | Ok opt => Ok (built os fd arch' dev af lsi eps ni
                                      n ls1 ls2 opt)
                | Raise e => Raise e
                end, w2)).
Proof.
  intros arch' fd init. subst init.
  unfold DQNPolicy.__init__. fold arch' fd.
  unfold Gym.n.
  rewrite (bind_Ok _ (eq_refl : lift (Ok n) w = (Ok n, w))).
  unfold DQNPolicy._build, DQNPolicy.make_q_net.
  cbn [DQNPolicy.net_args DQNPolicy.set_q_net DQNPolicy.set_q_net_target
       DQNPolicy.device DQNPolicy.na_observation_space
       DQNPolicy.na_action_space DQNPolicy.na_features_extractor
       DQNPolicy.na_features_dim DQNPolicy.na_action_dim
       DQNPolicy.na_net_arch DQNPolicy.na_device DQNPolicy.na_activation_fn
       DQNPolicy.na_epsilon DQNPolicy.na_normalize_images].
  destruct (Q_Net_init_cases eas os (Gym.Discrete n) Flatten
              fd n (Some arch') dev af eps ni w)
    as [[Hi E]|[Hi (ls1 & w1 & Hm1 & E1)]]; cbv zeta in *.
  - left. split; [exact Hi|].
    rewrite (bind_Raise _ (bind_Raise _ E)). reflexivity.
  - right. split; [exact Hi|].
    destruct (Q_Net_init_cases eas os (Gym.Discrete n) Flatten
                fd n (Some arch') dev af eps ni w1)
      as [[Hi' E]|[_ (ls2 & w2 & Hm2 & E2)]]; cbv zeta in *; [congruence|].
    exists ls1, ls2, w1, w2.
    assert (Hlike : layers_like ls2 ls1 = true)
      by (eapply mlp_layers_like; [exact Hm2 | exact Hm1]).
    repeat (split; [assumption|]).
    pose proof (bind_ret_Ok (fun net => Q_Net.to net dev) E1) as Em1.
    pose proof (bind_ret_Ok (fun net => Q_Net.to net dev) E2) as Em2.
    cbv beta in Em1, Em2.
    rewrite (bind_Ok _ Em1), (bind_Ok _ Em2).
    unfold Q_Net.to, Q_Net.load_state_dict, Q_Net.state_dict,
      Nn.load_state_dict.
    cbn [Q_Net.q_net]. rewrite (loadable_like _ _ Hlike). cbn [rbind].
    unfold lift at 1. unfold bind at 1.
    unfold DQNPolicy.parameters, DQNPolicy.owned, Q_Net.state_dict.
    cbn [DQNPolicy.q_net DQNPolicy.q_net_target DQNPolicy.set_q_net_target
         Q_Net.q_net Q_Net.set_q_net].
    unfold lift, bind, ret.
    destruct (Adam_init _ _); reflexivity.
Qed.

Lemma Adam_init_cases (params : list ParamRef) (rate : Q) :
  Adam_init params rate = Raise ValueError
  \/ (Adam_init params rate = Ok (mkAdam params rate)
      /\ params <> [] /\ 0 <= rate).
Proof.
  unfold Adam_init. destruct params as [|r tl]; [left; reflexivity|].
  destruct (Qlt_bool rate 0) eqn:E; [left; reflexivity|].
  right. apply Qlt_bool_false in E. repeat split; [discriminate | exact E].
Qed.

(** A construction that completes was over a [Discrete] space and
    returns [built]. *)
Lemma init_Ok_inv (god : Gym.Space -> Z) (eas : bool) (os sp : Gym.Space)
      (lr_schedule : Q -> Q) (arch : option (list Z)) (dev : String.string)
      (sde : bool) (af : Q -> Q) (lsi eps : Q) (ni : bool)
      (w w' : World) (p : DQNPolicy.t) :
  DQNPolicy.__init__ god eas os sp lr_schedule arch dev sde af lsi eps ni w
  = (Ok p, w') ->
  let arch' := match arch with None => [256; 256]%Z | Some a => a end in
  exists n ls1 ls2 w1,
    sp = Gym.Discrete n
    /\ invalid_arch eas (god os) n arch' = false
    /\ mlp_layers (Z.to_nat (god os)) (map Z.to_nat arch') (Z.to_nat n) af w
       = (Ok ls1, w1)
    /\ mlp_layers (Z.to_nat (god os)) (map Z.to_nat arch') (Z.to_nat n) af w1
       = (Ok ls2, w')
    /\ layers_like ls2 ls1 = true
    /\ p = built os (god os) arch' dev af lsi eps ni n ls1 ls2
             (mkAdam (map (fun kv => (Online, fst kv)) (Nn.state_dict ls1)
                      ++ map (fun kv => (Target, fst kv))
                             (Nn.state_dict (assign_from 0 ls2 (Nn.state_dict ls1))))
                     (lr_schedule 1)).
Proof.
  intros H arch'. destruct sp as [n|sh].
  - destruct (init_discrete god eas os lr_schedule arch dev sde af lsi eps ni n w)
      as [[_ E]|[Hi (ls1 & ls2 & w1 & w2 & Hm1 & Hm2 & Hlike & E)]];
      rewrite E in H; [discriminate H|].
    match type of H with
    | (match Adam_init ?ps ?r with _ => _ end, _) = _ =>
        destruct (Adam_init_cases ps r) as [Ea|[Ea _]]; rewrite Ea in H
    end; [discriminate H|].
    inversion H. subst. exists n, ls1, ls2, w1. auto 10.
  - rewrite init_box in H. discriminate H.
Qed.

Lemma state_dict_assign (ls1 ls2 : list Layer) :
  layers_like ls2 ls1 = true ->
  Nn.state_dict (assign_from 0 ls2 (Nn.state_dict ls1)) = Nn.state_dict ls1
  /\ layers_like ls1 (assign_from 0 ls2 (Nn.state_dict ls1)) = true.
Proof.
  intros H.
  exact (@assign_from_like _ _ H 0%nat [] ltac:(intros kv [])).
Qed.

(** ** [update_epsilon], the hard sync and the invariants *)

Lemma update_epsilon_inv (p : DQNPolicy.t) (x : Q) :
  eps_inv p ->
  exists p' online target,
    DQNPolicy.update_epsilon p x = Ok p'
    /\ DQNPolicy.q_net p' = Some online
    /\ DQNPolicy.q_net_target p' = Some target
    /\ Q_Net.epsilon online = x
    /\ Q_Net.epsilon target = x
    /\ DQNPolicy.epsilon p' = x
    /\ DQNPolicy.net_args p' = DQNPolicy.net_args p.
Proof.
  intros (on & tg & Hon & Htg & _ & _).
  unfold DQNPolicy.update_epsilon. rewrite Htg.
  cbn [DQNPolicy.q_net DQNPolicy.set_q_net_target]. rewrite Hon.
  eexists. exists (Q_Net.set_epsilon on x), (Q_Net.set_epsilon tg x).
  repeat split; reflexivity.
Qed.

Lemma hard_sync_like (eas : bool) (p : DQNPolicy.t) (w : World) :
  same_arch p = true ->
  exists online target target',
    DQNPolicy.q_net p = Some online
    /\ DQNPolicy.q_net_target p = Some target
    /\ Q_Net.load_state_dict target (Q_Net.state_dict online) = Ok target'
    /\ Q_Net.state_dict target' = Q_Net.state_dict online
    /\ Q_Net.epsilon target' = Q_Net.epsilon target
    /\ Q_Net.load_state_dict target' (Q_Net.state_dict online) = Ok target'
    /\ run eas HardSync p w = (DQNPolicy.set_q_net_target p (Some target'), w)
    /\ same_arch (DQNPolicy.set_q_net_target p (Some target')) = true
    /\ run eas HardSync (DQNPolicy.set_q_net_target p (Some target')) w
       = (DQNPolicy.set_q_net_target p (Some target'), w).
Proof.
  unfold same_arch. cbn [run].
  destruct (DQNPolicy.q_net p) as [on|] eqn:Hon; [|discriminate].
  destruct (DQNPolicy.q_net_target p) as [tg|] eqn:Htg; [|discriminate].
  intros Hlike. rewrite layers_like_sym in Hlike.
  destruct (load_state_dict_like tg on Hlike)
    as (tg' & Hload & Hsd & Hlike' & Heps & Hagain).
  exists on, tg, tg'.
  cbn [DQNPolicy.q_net DQNPolicy.q_net_target DQNPolicy.set_q_net_target].
  rewrite Hon, Hload, Hagain.
  repeat split; try assumption; reflexivity.
Qed.

Lemma init_invariants (god : Gym.Space -> Z) (eas : bool) (os sp : Gym.Space)
      (lr_schedule : Q -> Q) (arch : option (list Z)) (dev : String.string)
      (sde : bool) (af : Q -> Q) (lsi eps : Q) (ni : bool)
      (w w' : World) (p : DQNPolicy.t) :
  DQNPolicy.__init__ god eas os sp lr_schedule arch dev sde af lsi eps ni w
  = (Ok p, w') ->
  eps_inv p /\ same_arch p = true /\ DQNPolicy.epsilon p = eps
  /\ DQNPolicy.na_epsilon (DQNPolicy.net_args p) = eps.
Proof.
  intros H. destruct (init_Ok_inv _ _ _ _ _ _ _ _ _ _ _ _ _ H)
    as (n & ls1 & ls2 & w1 & -> & Hi & Hm1 & Hm2 & Hlike & ->).
  destruct (state_dict_assign _ _ Hlike) as [Hsd Hl].
  split; [|split; [exact Hl | split; reflexivity]].
  eexists. eexists. repeat split; reflexivity.
Qed.

(** The online network of a policy just constructed maps every batch of
    observations of the configured width to a [B x action_dim] matrix of
    Q-values. *)
Lemma constructed_forward_matrix (god : Gym.Space -> Z) (eas : bool)
      (os sp : Gym.Space) (lr_schedule : Q -> Q) (arch : option (list Z))
      (dev : String.string) (sde : bool) (af : Q -> Q) (lsi eps : Q)
      (ni : bool) (w w' : World) (p : DQNPolicy.t) :
  DQNPolicy.__init__ god eas os sp lr_schedule arch dev sde af lsi eps ni w
  = (Ok p, w') ->
  exists online n,
    DQNPolicy.q_net p = Some online
    /\ sp = Gym.Discrete n
    /\ (0 < n)%Z
    /\ forall (obs : Tensor) (B d : nat) (rest : list nat),
        shape obs = B :: d :: rest ->
        prod (d :: rest) = Z.to_nat (god os) ->
        exists q,
          Q_Net.forward online obs = Ok (mkTensor [B; Z.to_nat n] q)
          /\ length q = (B * Z.to_nat n)%nat.
Proof.
  intros H. destruct (init_Ok_inv _ _ _ _ _ _ _ _ _ _ _ _ _ H)
    as (n & ls1 & ls2 & w1 & -> & Hi & Hm1 & Hm2 & Hlike & ->).
  eexists. exists n. split; [reflexivity|]. split; [reflexivity|]. split.
  - unfold invalid_arch in Hi.
    apply orb_false_iff in Hi. destruct Hi as [Hi _].
    apply orb_false_iff in Hi. destruct Hi as [Hi _].
    apply orb_false_iff in Hi. destruct Hi as [Hout _].
    apply Z.leb_gt in Hout. exact Hout.
  - intros obs B d rest Hsh Hw.
    unfold Q_Net.forward, Q_Net.extract_features.
    cbn [Q_Net.features_extractor Q_Net.q_net]. unfold Flatten.
    rewrite Hsh, Hw. cbn [rbind].
    eapply mlp_layers_forward. exact Hm1.
Qed.

Lemma run_preserves_eps_inv (eas : bool) (op : Op) (p : DQNPolicy.t) (w : World) :
  eps_inv p -> eps_inv (fst (run eas op p w)).
Proof.
  intros Hinv. destruct op as [x| |obs|obs d|obs d|]; cbn [run fst];
    try exact Hinv.
  - destruct (update_epsilon_inv x Hinv)
      as (p' & on & tg & -> & Hon & Htg & Heo & Het & Hep & _).
    cbn [fst]. exists on, tg. rewrite Hep. auto.
  - destruct Hinv as (on & tg & Hon & Htg & Heo & Het).
    rewrite Hon, Htg.
    destruct (Q_Net.load_state_dict tg (Q_Net.state_dict on)) as [tg'|e] eqn:E;
      cbn [fst].
    + exists on, tg'.
      cbn [DQNPolicy.q_net DQNPolicy.q_net_target DQNPolicy.set_q_net_target
           DQNPolicy.epsilon].
      repeat split; try assumption.
      unfold Q_Net.load_state_dict in E.
      destruct (Nn.load_state_dict (Q_Net.q_net tg) (Q_Net.state_dict on));
        cbn [rbind] in E; [|discriminate E].
      inversion E. exact Het.
    + exists on, tg. auto.
Qed.

Lemma run_all_preserves_eps_inv (eas : bool) (ops : list Op)
      (p : DQNPolicy.t) (w : World) :
  eps_inv p -> eps_inv (fst (run_all eas ops p w)).
Proof.
  revert p w. induction ops as [|op tl IH]; intros p w H; [exact H|].
  cbn [run_all].
  pose proof (run_preserves_eps_inv eas op w H) as H1.
  destruct (run eas op p w) as [p1 w1]. apply IH. exact H1.
Qed.

(** The operations keep the two networks built and of one architecture. *)
Lemma run_preserves_same_arch (eas : bool) (op : Op) (p : DQNPolicy.t) (w : World) :
  same_arch p = true -> same_arch (fst (run eas op p w)) = true.
Proof.
  intros H. destruct op as [x| |obs|obs d|obs d|];
    try (cbn [run fst]; exact H).
  - cbn [run]. unfold DQNPolicy.update_epsilon. unfold same_arch in H.
    destruct (DQNPolicy.q_net_target p) as [tg|] eqn:Htg;
      [|destruct (DQNPolicy.q_net p); discriminate H].
    cbn [DQNPolicy.q_net DQNPolicy.set_q_net_target].
    destruct (DQNPolicy.q_net p) as [on|] eqn:Hon; [|discriminate H].
    cbn [fst]. unfold same_arch. exact H.
  - destruct (@hard_sync_like eas p w H)
      as (on & tg & tg' & _ & _ & _ & _ & _ & _ & Hr & H' & _).
    rewrite Hr. exact H'.
Qed.

Lemma run_all_preserves_same_arch (eas : bool) (ops : list Op)
      (p : DQNPolicy.t) (w : World) :
  same_arch p = true -> same_arch (fst (run_all eas ops p w)) = true.
Proof.
  revert p w. induction ops as [|op tl IH]; intros p w H; [exact H|].
  cbn [run_all].
  pose proof (run_preserves_same_arch eas op p w H) as H1.
  destruct (run eas op p w) as [p1 w1]. apply IH. exact H1.
Qed.

(** [make_q_net] on a policy whose [net_args] are those of [built]. *)
Lemma make_q_net_built (eas : bool) (p : DQNPolicy.t)
      (os : Gym.Space) (fd : Z) (arch' : list Z) (dev : String.string)
      (af : Q -> Q) (eps : Q) (ni : bool) (n : Z) (w : World) :
  DQNPolicy.net_args p
  = DQNPolicy.mkNetArgs os (Gym.Discrete n) Flatten fd n arch' eps af ni dev ->
  invalid_arch eas fd n arch' = false ->
  exists ls w',
    mlp_layers (Z.to_nat fd) (map Z.to_nat arch') (Z.to_nat n) af w = (Ok ls, w')
    /\ DQNPolicy.make_q_net eas p w
       = (Ok (Q_Net.mk os (Gym.Discrete n) dev arch' af Flatten fd n ni eps ls), w').
Proof.
  intros Ha Hi. unfold DQNPolicy.make_q_net, Q_Net.to. rewrite Ha.
  cbn [DQNPolicy.na_observation_space DQNPolicy.na_action_space
       DQNPolicy.na_features_extractor DQNPolicy.na_features_dim
       DQNPolicy.na_action_dim DQNPolicy.na_net_arch DQNPolicy.na_device
       DQNPolicy.na_activation_fn DQNPolicy.na_epsilon
       DQNPolicy.na_normalize_images].
  rewrite bind_ret_id.
  destruct (Q_Net_init_cases eas os (Gym.Discrete n) Flatten fd n (Some arch')
              dev af eps ni w) as [[Hi' _]|[_ (ls & w' & Hm & E)]];
    cbv zeta in *; [congruence|].
  exists ls, w'. split; assumption.
Qed.

(** * The claims *)

(** C1: whenever the construction of a [DQNPolicy] completes, the state
    dict of the target network equals that of the online network, entry
    for entry.  The two networks come from two calls of [make_q_net], each
    drawing its own initial weights (the second from where the first left
    the generator), and the target's are then overwritten by
    [load_state_dict]. *)
Theorem target_equals_online_after_construction :
  forall (god : Gym.Space -> Z) (eas : bool) (os sp : Gym.Space)
         (lr_schedule : Q -> Q) (arch : option (list Z)) (dev : String.string)
         (sde : bool) (af : Q -> Q) (lsi eps : Q) (ni : bool)
         (w w' : World) (p : DQNPolicy.t),
    DQNPolicy.__init__ god eas os sp lr_schedule arch dev sde af lsi eps ni w
    = (Ok p, w') ->
    exists online target,
      DQNPolicy.q_net p = Some online
      /\ DQNPolicy.q_net_target p = Some target
      /\ Q_Net.state_dict target = Q_Net.state_dict online
      /\ exists w1 target0,
          DQNPolicy.make_q_net eas p w = (Ok online, w1)
          /\ DQNPolicy.make_q_net eas p w1 = (Ok target0, w')
          /\ Q_Net.load_state_dict target0 (Q_Net.state_dict online) = Ok target.
Proof.
  intros god eas os sp lr_schedule arch dev sde af lsi eps ni w w' p H.
  destruct (init_Ok_inv _ _ _ _ _ _ _ _ _ _ _ _ _ H)
    as (n & ls1 & ls2 & w1 & -> & Hi & Hm1 & Hm2 & Hlike & ->).
  destruct (state_dict_assign _ _ Hlike) as [Hsd _].
  eexists. eexists. split; [reflexivity|]. split; [reflexivity|].
  split; [exact Hsd|].
  match type of H with
  | _ = (Ok ?P, _) =>
      destruct (@make_q_net_built eas P os (god os) _ dev af eps ni n w
                  eq_refl Hi) as (l1 & u1 & Ha & E1);
      destruct (@make_q_net_built eas P os (god os) _ dev af eps ni n w1
                  eq_refl Hi) as (l2 & u2 & Hb & E2)
  end.
  rewrite Hm1 in Ha. inversion Ha. subst l1 u1.
  rewrite Hm2 in Hb. inversion Hb. subst l2 u2.
  exists w1. eexists. split; [exact E1|]. split; [exact E2|].
  unfold Q_Net.load_state_dict, Q_Net.state_dict, Nn.load_state_dict.
  cbn [Q_Net.q_net]. rewrite (loadable_like _ _ Hlike). reflexivity.
Qed.

Lemma target_equals_online_after_construction_witness :
  exists online target,
    DQNPolicy.q_net Examples.policy0 = Some online
    /\ DQNPolicy.q_net_target Examples.policy0 = Some target
    /\ Q_Net.state_dict target = Q_Net.state_dict online.
Proof.
  destruct (@target_equals_online_after_construction Examples.obs_dim true (Gym.Box [3%nat])
              (Gym.Discrete 4) Examples.lr_const (Some [2%Z]) String.EmptyString
              false Examples.ident 0 (5 # 100) true Examples.w0
              (snd (Examples.policy (5 # 100) Examples.w0)) Examples.policy0
              ltac:(vm_compute; reflexivity))
    as (online & target & Ho & Ht & Hsd & _).
  exists online, target. auto.
Defined.

(** Before the hard sync the two networks do differ: two successive
    [Q_Net] constructions from the same arguments. *)
Lemma independent_initialisation_differs :
  exists n1 w1 n2 w2,
    Q_Net.__init__ true (Gym.Box [3%nat]) (Gym.Discrete 4) Flatten 3 4
                   (Some [2%Z]) String.EmptyString Examples.ident (5 # 100)
                   true Examples.w0 = (Ok n1, w1)
    /\ Q_Net.__init__ true (Gym.Box [3%nat]) (Gym.Discrete 4) Flatten 3 4
                      (Some [2%Z]) String.EmptyString Examples.ident (5 # 100)
                      true w1 = (Ok n2, w2)
    /\ Q_Net.state_dict n1 <> Q_Net.state_dict n2.
Proof.
  eexists. eexists. eexists. eexists.
  split; [vm_compute; reflexivity|].
  split; [vm_compute; reflexivity|].
  vm_compute. discriminate.
Qed.

(** C2 as stated fails: the optimizer is built over [self.parameters()],
    the parameters of the whole policy, and these include the target
    network's. *)
Lemma optimizer_holds_target_parameters :
  exists p opt,
    fst (Examples.policy (5 # 100) Examples.w0) = Ok p
    /\ DQNPolicy.optimizer p = Some opt
    /\ In (Target, (0%nat, Weight)) (param_groups opt)
    /\ param_groups opt <> DQNPolicy.owned Online (DQNPolicy.q_net p).
Proof.
  eexists. eexists.
  split; [vm_compute; reflexivity|].
  split; [reflexivity|].
  split.
  - simpl. do 4 right. left. reflexivity.
  - simpl. discriminate.
Qed.

(** C2, amended: whenever the construction completes, the optimizer
    holds the parameters of the online network followed by those of the
    target network (every parameter of the policy), and its learning rate
    is [lr_schedule(1)]. *)
Theorem optimizer_over_policy_parameters :
  forall (god : Gym.Space -> Z) (eas : bool) (os sp : Gym.Space)
         (lr_schedule : Q -> Q) (arch : option (list Z)) (dev : String.string)
         (sde : bool) (af : Q -> Q) (lsi eps : Q) (ni : bool)
         (w w' : World) (p : DQNPolicy.t),
    DQNPolicy.__init__ god eas os sp lr_schedule arch dev sde af lsi eps ni w
    = (Ok p, w') ->
    exists opt,
      DQNPolicy.optimizer p = Some opt
      /\ param_groups opt
         = DQNPolicy.owned Online (DQNPolicy.q_net p)
           ++ DQNPolicy.owned Target (DQNPolicy.q_net_target p)
      /\ DQNPolicy.owned Online (DQNPolicy.q_net p) <> []
      /\ DQNPolicy.owned Target (DQNPolicy.q_net_target p) <> []
      /\ lr opt = lr_schedule 1.
Proof.
  intros god eas os sp lr_schedule arch dev sde af lsi eps ni w w' p H.
  destruct (init_Ok_inv _ _ _ _ _ _ _ _ _ _ _ _ _ H)
    as (n & ls1 & ls2 & w1 & -> & Hi & Hm1 & Hm2 & Hlike & ->).
  destruct (state_dict_assign _ _ Hlike) as [Hsd _].
  eexists. split; [reflexivity|].
  unfold built, DQNPolicy.owned, Q_Net.state_dict.
  cbn [DQNPolicy.q_net DQNPolicy.q_net_target Q_Net.q_net param_groups lr].
  split; [reflexivity|].
  pose proof (@mlp_layers_params _ _ _ _ _ _ _ 0%nat Hm1) as Hne.
  fold (Nn.state_dict ls1) in Hne.
  rewrite Hsd.
  repeat split; try reflexivity;
    destruct (Nn.state_dict ls1); [congruence | discriminate
                                  | congruence | discriminate].
Qed.

Lemma optimizer_over_policy_parameters_witness :
  exists opt,
    DQNPolicy.optimizer Examples.policy0 = Some opt
    /\ param_groups opt
       = DQNPolicy.owned Online (DQNPolicy.q_net Examples.policy0)
         ++ DQNPolicy.owned Target (DQNPolicy.q_net_target Examples.policy0)
    /\ lr opt = Examples.lr_const 1.
Proof.
  destruct (@optimizer_over_policy_parameters Examples.obs_dim true (Gym.Box [3%nat])
              (Gym.Discrete 4) Examples.lr_const (Some [2%Z]) String.EmptyString
              false Examples.ident 0 (5 # 100) true Examples.w0
              (snd (Examples.policy (5 # 100) Examples.w0)) Examples.policy0
              ltac:(vm_compute; reflexivity))
    as (opt & Ho & Hp & _ & _ & Hlr).
  exists opt. auto.
Defined.

(** C3 (a defect of the code): with [deterministic=False] and the draw
    below epsilon, [predict] is to return one random action per batch
    element as a 1-D tensor.  On a batch of two observations, with
    epsilon 1 (so that every draw of [0,1) explores), the code draws the
    two actions and then raises at [reshape(1)], whatever the generators
    hold. *)
Theorem predict_explore_batch_of_two_raises :
  forall w : World,
    fst (Q_Net.predict (Examples.tie_net 1) Examples.obs2 false w)
    = Raise RuntimeError.
Proof.
  intros w.
  refine (proj1 (proj2 (@predict_explore_batched
            (Examples.tie_net 1) Examples.obs2 w 4 2 1 [] _ _ _ _)) _).
  - apply rand_range.
  - reflexivity.
  - reflexivity.
  - reflexivity.
  - discriminate.
Qed.

(** C4 (a defect of the code): [predict] with [deterministic=True] is to
    return the argmax over the action dimension of [forward(obs)] for
    every observation.  On an observation without a batch dimension whose
    forward pass yields the Q-values [0.1, 0.9, 0.9, 0.2] it raises
    [IndexError] at [th.argmax(q_val, 1)] instead of returning 1; and on a
    constructed policy an unbatched observation of the configured width
    makes [q_predict] raise as well.  The exploring branch of the same
    method does handle such an observation ([observation.ndim > 1]). *)
Theorem predict_deterministic_unbatched_raises :
  forall w : World,
    Q_Net.forward Examples.raw_net Examples.obs_flat
    = Ok (mkTensor [4%nat] [1 # 10; 9 # 10; 9 # 10; 2 # 10])
    /\ Q_Net.predict Examples.raw_net Examples.obs_flat true w
       = (Raise IndexError, w)
    /\ fst (DQNPolicy.q_predict Examples.policy0 Examples.obs3_flat true w)
       = Raise IndexError.
Proof.
  intros w. split; [vm_compute; reflexivity|]. split.
  - apply (@predict_deterministic_unbatched Examples.raw_net Examples.obs_flat
             w (mkTensor [4%nat] [1 # 10; 9 # 10; 9 # 10; 2 # 10])).
    + vm_compute. reflexivity.
    + vm_compute. lia.
  - assert (Hq : DQNPolicy.q_net Examples.policy0
                 = Some (match DQNPolicy.q_net Examples.policy0 with
                         | Some n => n
                         | None => Examples.raw_net
                         end)) by (vm_compute; reflexivity).
    unfold DQNPolicy.q_predict. rewrite Hq.
    rewrite predict_deterministic. vm_compute. reflexivity.
Qed.

(** X15: when the forward pass yields a [B x A] matrix of Q-values,
    [predict] with [deterministic=True] returns for every row the argmax
    over the action dimension, the lowest index attaining the row's
    maximal Q-value; on the single row [0.1, 0.9, 0.9, 0.2] it is 1. *)
Theorem predict_deterministic_first_argmax :
  forall (net : Q_Net.t) (obs : Tensor) (w : World) (B A : nat) (qdata : list Q),
    Q_Net.forward net obs = Ok (mkTensor [B; A] qdata) ->
    (0 < A)%nat ->
    length qdata = (B * A)%nat ->
    Q_Net.predict net obs true w
    = (Ok (mkTensor [B]
             (map (fun row => inject_Z (Z.of_nat (argmax_list row)))
                  (chunks A B qdata))), w)
    /\ (forall row, In row (chunks A B qdata) ->
                    is_first_max row (argmax_list row))
    /\ (B = 1%nat -> A = 4%nat -> qdata = [1 # 10; 9 # 10; 9 # 10; 2 # 10] ->
        Q_Net.predict net obs true w = (Ok (mkTensor [1%nat] [1]), w)).
Proof.
  intros net obs w B A qdata Hfwd HA Hlen.
  assert (Hp : Q_Net.predict net obs true w
               = (Ok (mkTensor [B]
                        (map (fun row => inject_Z (Z.of_nat (argmax_list row)))
                             (chunks A B qdata))), w)).
  { rewrite predict_deterministic, Hfwd. cbn [rbind].
    rewrite (argmax_matrix B qdata HA Hlen). cbn [rbind].
    unfold reshape, numel. cbn [shape data prod fold_right Z.eqb].
    rewrite Nat.mul_1_r. reflexivity. }
  split; [exact Hp|]. split.
  - intros row Hin. apply argmax_list_spec.
    pose proof (chunks_length A B qdata Hlen row Hin) as Hr.
    intros ->. simpl in Hr. lia.
  - intros -> -> ->. rewrite Hp. reflexivity.
Qed.

Lemma predict_deterministic_first_argmax_witness :
  Q_Net.predict (Examples.tie_net 0) Examples.obs1 true Examples.w0
  = (Ok (mkTensor [1%nat] [1]), Examples.w0).
Proof.
  refine (proj2 (proj2 (@predict_deterministic_first_argmax
            (Examples.tie_net 0) Examples.obs1 Examples.w0 1 4
            [1 # 10; 9 # 10; 9 # 10; 2 # 10] _ _ _)) _ _ _).
  - vm_compute. reflexivity.
  - lia.
  - reflexivity.
  - reflexivity.
  - reflexivity.
  - reflexivity.
Defined.

(** C5: at every state a caller can reach (any sequence of operations
    after a construction that completed) the epsilon of the online
    network, that of the target network and the policy's own are equal;
    and [update_epsilon(x)] takes such a state, in one step, to a state
    where all three are [x]. *)
Theorem update_epsilon_three_way :
  forall (god : Gym.Space -> Z) (eas : bool) (os sp : Gym.Space)
         (lr_schedule : Q -> Q) (arch : option (list Z)) (dev : String.string)
         (sde : bool) (af : Q -> Q) (lsi eps : Q) (ni : bool)
         (w w' : World) (p : DQNPolicy.t),
    DQNPolicy.__init__ god eas os sp lr_schedule arch dev sde af lsi eps ni w
    = (Ok p, w') ->
    forall (ops : list Op) (w1 : World),
      let q := fst (run_all eas ops p w1) in
      eps_inv q
      /\ forall x : Q,
          exists q' online target,
            DQNPolicy.update_epsilon q x = Ok q'
            /\ fst (run eas (UpdateEpsilon x) q w1) = q'
            /\ DQNPolicy.q_net q' = Some online
            /\ DQNPolicy.q_net_target q' = Some target
            /\ Q_Net.epsilon online = x
            /\ Q_Net.epsilon target = x
            /\ DQNPolicy.epsilon q' = x.
Proof.
  intros god eas os sp lr_schedule arch dev sde af lsi eps ni w w' p H ops w1 q.
  assert (Hq : eps_inv q).
  { apply run_all_preserves_eps_inv.
    exact (proj1 (init_invariants _ _ _ _ _ _ _ _ _ _ _ _ _ H)). }
  split; [exact Hq|]. intros x.
  destruct (update_epsilon_inv x Hq)
    as (q' & on & tg & Hu & Hon & Htg & Heo & Het & Hep & _).
  exists q', on, tg. cbn [run]. rewrite Hu. auto 10.
Qed.

Lemma update_epsilon_three_way_witness :
  exists q' online target,
    DQNPolicy.update_epsilon Examples.policy0 (1 # 2) = Ok q'
    /\ DQNPolicy.q_net q' = Some online
    /\ DQNPolicy.q_net_target q' = Some target
    /\ Q_Net.epsilon online = 1 # 2
    /\ Q_Net.epsilon target = 1 # 2
    /\ DQNPolicy.epsilon q' = 1 # 2.
Proof.
  destruct (@update_epsilon_three_way Examples.obs_dim true (Gym.Box [3%nat])
              (Gym.Discrete 4) Examples.lr_const (Some [2%Z]) String.EmptyString
              false Examples.ident 0 (5 # 100) true Examples.w0
              (snd (Examples.policy (5 # 100) Examples.w0)) Examples.policy0
              (ltac:(vm_compute; reflexivity))
              [] Examples.w0) as [_ Hx].
  destruct (Hx (1 # 2)) as (q' & on & tg & Hu & _ & H1 & H2 & H3 & H4 & H5).
  exists q', on, tg. auto 10.
Defined.




(** C7 as stated fails: over a [Box] action space the construction does
    fail, but with the [AttributeError] of the lookup [action_space.n],
    not with [UnsupportedSpaceError]. *)
Lemma construction_over_box_not_unsupported_space_error :
  fst (Examples.policy_box Examples.w0) = Raise AttributeError
  /\ fst (Examples.policy_box Examples.w0) <> Raise UnsupportedSpaceError.
Proof.
  split; [reflexivity | discriminate].
Qed.

(** C7, amended: the construction of a [DQNPolicy] over an action space
    without the attribute [n] (a [Box]) fails, at construction and before
    any network is built, with [AttributeError]; no construction raises
    [UnsupportedSpaceError]; and over a [Discrete] space the construction
    raises neither. *)
Theorem construction_action_space_error :
  forall (god : Gym.Space -> Z) (eas : bool) (os : Gym.Space)
         (lr_schedule : Q -> Q) (arch : option (list Z)) (dev : String.string)
         (sde : bool) (af : Q -> Q) (lsi eps : Q) (ni : bool) (w : World),
    (forall sh : list nat,
        DQNPolicy.__init__ god eas os (Gym.Box sh) lr_schedule arch dev sde af
                           lsi eps ni w
        = (Raise AttributeError, w))
    /\ (forall sp : Gym.Space,
           fst (DQNPolicy.__init__ god eas os sp lr_schedule arch dev sde af
                                   lsi eps ni w)
           <> Raise UnsupportedSpaceError)
    /\ (forall n : Z,
           fst (DQNPolicy.__init__ god eas os (Gym.Discrete n) lr_schedule arch
                                   dev sde af lsi eps ni w)
           <> Raise AttributeError).
Proof.
  intros god eas os lr_schedule arch dev sde af lsi eps ni w.
  assert (Hd : forall n e,
             fst (DQNPolicy.__init__ god eas os (Gym.Discrete n) lr_schedule
                                     arch dev sde af lsi eps ni w) = Raise e ->
             e = ConfigurationError \/ e = ValueError).
  { intros n e.
    destruct (init_discrete god eas os lr_schedule arch dev sde af lsi eps ni n w)
      as [[_ E]|[_ (ls1 & ls2 & w1 & w2 & _ & _ & _ & E)]]; rewrite E; cbn [fst].
    - intros H. inversion H. left. reflexivity.
    - match goal with
      | |- context [Adam_init ?ps ?r] =>
          destruct (Adam_init_cases ps r) as [Ea|[Ea _]]; rewrite Ea
      end; intros H; inversion H. right. reflexivity. }
  split; [|split].
  - intros sh. reflexivity.
  - intros [n|sh].
    + intros H. destruct (Hd n _ H); discriminate.
    + cbn. discriminate.
  - intros n H. destruct (Hd n _ H); discriminate.
Qed.

(** C8: the construction of a [Q_Net] raises [ConfigurationError], and
    draws nothing, whenever [action_dim <= 0], and whenever [net_arch] is
    empty and an empty architecture is not supported. *)
Theorem Q_Net_construction_configuration_error :
  forall (eas : bool) (os sp : Gym.Space) (fe : Tensor -> result Tensor)
         (fd ad : Z) (arch : option (list Z)) (dev : String.string)
         (af : Q -> Q) (eps : Q) (ni : bool) (w : World),
    (ad <= 0)%Z \/ (arch = Some [] /\ eas = false) ->
    Q_Net.__init__ eas os sp fe fd ad arch dev af eps ni w
    = (Raise ConfigurationError, w).
Proof.
  intros eas os sp fe fd ad arch dev af eps ni w H.
  destruct (Q_Net_init_cases eas os sp fe fd ad arch dev af eps ni w)
    as [[_ E]|[Hi _]]; [exact E|]. exfalso.
  unfold invalid_arch in Hi.
  apply orb_false_iff in Hi. destruct Hi as [Hi Hempty].
  apply orb_false_iff in Hi. destruct Hi as [Hi _].
  apply orb_false_iff in Hi. destruct Hi as [Hout _].
  apply Z.leb_gt in Hout.
  destruct H as [H|[-> ->]]; [lia|]. discriminate Hempty.
Qed.

Lemma Q_Net_construction_configuration_error_witness :
  Q_Net.__init__ true (Gym.Box [3%nat]) (Gym.Discrete 0) Flatten 3 0
                 (Some [2%Z]) String.EmptyString Examples.ident (5 # 100)
                 true Examples.w0
  = (Raise ConfigurationError, Examples.w0).
Proof.
  apply Q_Net_construction_configuration_error. left. lia.
Defined.

(** C9: with epsilon 0.0 a call with [deterministic=False] returns what
    the call with [deterministic=True] returns on the same observation,
    on every call: the draw of [0,1) is never below 0, so the exploration
    branch is not taken and the action space is not sampled. *)
Theorem predict_epsilon_zero :
  forall (net : Q_Net.t) (obs : Tensor) (w : World),
    Q_Net.epsilon net == 0 ->
    fst (Q_Net.predict net obs false w) = fst (Q_Net.predict net obs true w)
    /\ space_pos (snd (Q_Net.predict net obs false w)) = space_pos w.
Proof.
  intros net obs w Heps.
  rewrite predict_exploit.
  - split; reflexivity.
  - rewrite Heps. apply rand_range.
Qed.

Lemma predict_epsilon_zero_witness :
  fst (Q_Net.predict (Examples.tie_net 0) Examples.obs2 false Examples.w0)
  = fst (Q_Net.predict (Examples.tie_net 0) Examples.obs2 true Examples.w0).
Proof.
  refine (proj1 (@predict_epsilon_zero (Examples.tie_net 0) Examples.obs2
                   Examples.w0 _)).
  reflexivity.
Defined.

(** C10: [update_epsilon(x)] leaves [net_args] as the constructor wrote
    it, so a network made afterwards by [make_q_net] carries the epsilon
    given at construction; when [x] differs from it, the new network's
    epsilon differs from the policy's. *)
Theorem update_epsilon_keeps_net_args :
  forall (god : Gym.Space -> Z) (eas : bool) (os sp : Gym.Space)
         (lr_schedule : Q -> Q) (arch : option (list Z)) (dev : String.string)
         (sde : bool) (af : Q -> Q) (lsi eps : Q) (ni : bool)
         (w w' : World) (p : DQNPolicy.t) (x : Q),
    DQNPolicy.__init__ god eas os sp lr_schedule arch dev sde af lsi eps ni w
    = (Ok p, w') ->
    exists p',
      DQNPolicy.update_epsilon p x = Ok p'
      /\ DQNPolicy.net_args p' = DQNPolicy.net_args p
      /\ DQNPolicy.epsilon p' = x
      /\ forall w2 : World,
          exists net w3,
            DQNPolicy.make_q_net eas p' w2 = (Ok net, w3)
            /\ Q_Net.epsilon net = eps
            /\ (~ x == eps -> ~ Q_Net.epsilon net == DQNPolicy.epsilon p').
Proof.
  intros god eas os sp lr_schedule arch dev sde af lsi eps ni w w' p x H.
  destruct (init_invariants _ _ _ _ _ _ _ _ _ _ _ _ _ H) as (Hinv & _ & _ & _).
  destruct (update_epsilon_inv x Hinv)
    as (p' & on & tg & Hu & _ & _ & _ & _ & Hep & Hargs).
  exists p'. repeat (split; [assumption|]).
  intros w2.
  destruct (init_Ok_inv _ _ _ _ _ _ _ _ _ _ _ _ _ H)
    as (n & ls1 & ls2 & w1 & -> & Hi & _ & _ & _ & Hp).
  rewrite Hp in Hargs. cbn [built DQNPolicy.net_args] in Hargs.
  destruct (@make_q_net_built eas p' _ _ _ _ _ _ _ _ w2 Hargs Hi)
    as (ls & w3 & _ & E).
  eexists. exists w3. split; [exact E|]. cbn [Q_Net.epsilon].
  split; [reflexivity|]. rewrite Hep. intros Hne Heq. apply Hne.
  symmetry. exact Heq.
Qed.

Lemma update_epsilon_keeps_net_args_witness :
  exists p' net w3,
    DQNPolicy.update_epsilon Examples.policy0 (1 # 2) = Ok p'
    /\ DQNPolicy.make_q_net true p' Examples.w0 = (Ok net, w3)
    /\ Q_Net.epsilon net = 5 # 100
    /\ ~ Q_Net.epsilon net == DQNPolicy.epsilon p'.
Proof.
  destruct (@update_epsilon_keeps_net_args Examples.obs_dim true
              (Gym.Box [3%nat]) (Gym.Discrete 4) Examples.lr_const
              (Some [2%Z]) String.EmptyString false Examples.ident 0 (5 # 100)
              true Examples.w0 (snd (Examples.policy (5 # 100) Examples.w0))
              Examples.policy0 (1 # 2) ltac:(vm_compute; reflexivity))
    as (p' & Hu & _ & _ & Hm).
  destruct (Hm Examples.w0) as (net & w3 & E & He & Hne).
  exists p', net, w3. repeat (split; [assumption|]).
  apply Hne. discriminate.
Defined.

(** * Further properties of the code *)

Unset Implicit Arguments.

(** X1: a call of [predict] with [deterministic=True] leaves every random
    generator where it was (the test [not deterministic and rand() < eps]
    stops before drawing); a call with [deterministic=False] advances
    numpy's generator by exactly one draw, whichever branch it takes and
    whether or not it raises. *)
Theorem predict_generator_use :
  forall (net : Q_Net.t) (obs : Tensor) (w : World),
    snd (Q_Net.predict net obs true w) = w
    /\ np_pos (snd (Q_Net.predict net obs false w)) = S (np_pos w)
    /\ np_bits (snd (Q_Net.predict net obs false w)) = np_bits w.
Proof.
  intros net obs w. split; [|split].
  - rewrite predict_deterministic. reflexivity.
  - exact (predict_np_draws net obs false w).
  - rewrite predict_stochastic.
    destruct (Qlt_bool (Numpy.rand_value w) (Q_Net.epsilon net)); [|reflexivity].
    assert (Hs : forall w1, np_bits (snd (Gym.sample (Q_Net.action_space net) w1))
                            = np_bits w1).
    { intros w1. unfold Gym.sample.
      destruct (Q_Net.action_space net) as [k|sh]; [|reflexivity].
      destruct (0 <? k)%Z; reflexivity. }
    destruct (1 <? ndim obs)%nat; unfold bind.
    + assert (Hm : forall l w1,
                 np_bits (snd (mapM (fun _ : nat => Gym.sample (Q_Net.action_space net))
                                    l w1)) = np_bits w1).
      { induction l as [|x tl IH]; intros w1; [reflexivity|].
        cbn [mapM]. unfold bind. specialize (Hs w1).
        destruct (Gym.sample (Q_Net.action_space net) w1) as [[t|e] w2];
          cbn [snd] in Hs; [|exact Hs].
        specialize (IH w2).
        destruct (mapM _ tl w2) as [[ts|e] w3]; cbn in IH |- *; congruence. }
      specialize (Hm (seq 0 (hd 0%nat (shape obs))) (snd (Numpy.rand w))).
      destruct (mapM _ _ _) as [[ts|e] w2]; exact Hm.
    + specialize (Hs (snd (Numpy.rand w))).
      destruct (Gym.sample _ _) as [[t|e] w2]; exact Hs.
Qed.

(** X2: when a stochastic call explores on an observation without a
    batch dimension, over a [Discrete(k)] action space with [k > 0], it
    draws one action from the space and returns it as a tensor of shape
    [1], an integer of [0, k). *)
Theorem explore_unbatched_returns_one_action :
  forall (net : Q_Net.t) (obs : Tensor) (w : World) (k : Z),
    Numpy.rand_value w < Q_Net.epsilon net ->
    Q_Net.action_space net = Gym.Discrete k ->
    (0 < k)%Z ->
    (ndim obs <= 1)%nat ->
    exists a,
      (0 <= a < k)%Z
      /\ fst (Q_Net.predict net obs false w) = Ok (mkTensor [1%nat] [inject_Z a])
      /\ space_pos (snd (Q_Net.predict net obs false w)) = S (space_pos w).
Proof.
  intros net obs w k Hu Hsp Hk Hnd.
  destruct (@predict_explore_unbatched net obs w k Hu Hsp Hk Hnd) as (a & Ha & E).
  exists a. rewrite E. cbn. repeat split; try apply Ha. lia.
Qed.

Lemma explore_unbatched_returns_one_action_witness :
  exists a,
    (0 <= a < 4)%Z
    /\ fst (Q_Net.predict (Examples.tie_net 1) Examples.obs_flat false Examples.w0)
       = Ok (mkTensor [1%nat] [inject_Z a]).
Proof.
  destruct (explore_unbatched_returns_one_action
              (Examples.tie_net 1) Examples.obs_flat Examples.w0 4
              ltac:(vm_compute; reflexivity) ltac:(reflexivity)
              ltac:(lia) ltac:(vm_compute; lia))
    as (a & Ha & E & _).
  exists a. split; assumption.
Defined.

(** X3: when a stochastic call explores on a batch of [B] observations,
    it first draws [B] actions from the action space; then the
    [reshape(1)] lets a batch of one through, as one action of [0, k),
    and raises [RuntimeError] for every other batch size, the empty batch
    included. *)
Theorem explore_batched_by_size :
  forall (net : Q_Net.t) (obs : Tensor) (w : World) (k : Z)
         (B d : nat) (rest : list nat),
    Numpy.rand_value w < Q_Net.epsilon net ->
    Q_Net.action_space net = Gym.Discrete k ->
    (0 < k)%Z ->
    shape obs = B :: d :: rest ->
    space_pos (snd (Q_Net.predict net obs false w)) = (space_pos w + B)%nat
    /\ (B = 1%nat ->
        exists a, (0 <= a < k)%Z
          /\ fst (Q_Net.predict net obs false w)
             = Ok (mkTensor [1%nat] [inject_Z a]))
    /\ (B <> 1%nat ->
        fst (Q_Net.predict net obs false w) = Raise RuntimeError).
Proof.
  intros net obs w k B d rest Hu Hsp Hk Hsh.
  destruct (@predict_explore_batched net obs w k B d rest Hu Hsp Hk Hsh) as (Hw & Hne & Heq).
  split; [rewrite Hw; reflexivity|]. split; assumption.
Qed.

Lemma explore_batched_by_size_witness :
  exists a,
    (0 <= a < 4)%Z
    /\ fst (Q_Net.predict (Examples.tie_net 1) Examples.obs1 false Examples.w0)
       = Ok (mkTensor [1%nat] [inject_Z a]).
Proof.
  destruct (explore_batched_by_size
              (Examples.tie_net 1) Examples.obs1 Examples.w0 4 1 1 []
              ltac:(vm_compute; reflexivity) ltac:(reflexivity)
              ltac:(lia) ltac:(reflexivity))
    as (_ & H1 & _).
  exact (H1 eq_refl).
Defined.

(** X4: with epsilon at least 1 every stochastic call explores, and its
    outcome does not depend on the network: two networks with the same
    epsilon and action space, whatever their weights and feature
    extractors, return the same result and leave the generators in the
    same state. *)
Theorem always_explore_ignores_network :
  forall (net net' : Q_Net.t) (obs : Tensor) (w : World),
    1 <= Q_Net.epsilon net ->
    Q_Net.epsilon net' = Q_Net.epsilon net ->
    Q_Net.action_space net' = Q_Net.action_space net ->
    Q_Net.predict net' obs false w = Q_Net.predict net obs false w.
Proof.
  intros net net' obs w Heps He Hsp.
  rewrite !predict_stochastic, He, Hsp.
  assert (Hu : Qlt_bool (Numpy.rand_value w) (Q_Net.epsilon net) = true).
  { apply Qlt_bool_true.
    apply Qlt_le_trans with 1; [apply rand_range | exact Heps]. }
  rewrite Hu. reflexivity.
Qed.

Lemma always_explore_ignores_network_witness :
  Q_Net.predict (Examples.other_net 1) Examples.obs1 false Examples.w0
  = Q_Net.predict (Examples.tie_net 1) Examples.obs1 false Examples.w0.
Proof.
  apply always_explore_ignores_network.
  - vm_compute. discriminate.
  - reflexivity.
  - reflexivity.
Defined.

(** X13: [predict] with [deterministic=True] returns a value exactly
    when the forward pass returns Q-values with at least two dimensions
    and a non-empty dimension 1; the value is then 1-D.  Otherwise it
    raises: the error of the forward pass, or [IndexError] from
    [th.argmax(q_val, 1)]. *)
Theorem deterministic_predict_succeeds_iff :
  forall (net : Q_Net.t) (obs : Tensor) (w : World),
    ((exists t, fst (Q_Net.predict net obs true w) = Ok t /\ ndim t = 1%nat)
     <-> (exists q B A rest,
            Q_Net.forward net obs = Ok q
            /\ shape q = B :: A :: rest /\ A <> 0%nat))
    /\ (forall e, Q_Net.forward net obs = Raise e ->
                  fst (Q_Net.predict net obs true w) = Raise e)
    /\ (forall q, Q_Net.forward net obs = Ok q ->
                  (ndim q < 2)%nat \/ nth 1 (shape q) 1%nat = 0%nat ->
                  fst (Q_Net.predict net obs true w) = Raise IndexError).
Proof.
  intros net obs w. rewrite predict_deterministic. cbn [fst].
  destruct (Q_Net.forward net obs) as [q|e] eqn:Hf; cbn [rbind].
  - unfold argmax, ndim.
    destruct (shape q) as [|B [|A rest]] eqn:Hs; cbn [rbind].
    + split; [split|split].
      * intros (t & Ht & _). discriminate Ht.
      * intros (q' & B & A & rest & Hq & Hsh & _). inversion Hq. subst q'.
        rewrite Hs in Hsh. discriminate Hsh.
      * intros e He. discriminate He.
      * intros q' Hq _. reflexivity.
    + split; [split|split].
      * intros (t & Ht & _). discriminate Ht.
      * intros (q' & B' & A & rest & Hq & Hsh & _). inversion Hq. subst q'.
        rewrite Hs in Hsh. discriminate Hsh.
      * intros e He. discriminate He.
      * intros q' Hq _. reflexivity.
    + destruct (A =? 0)%nat eqn:E; cbn [rbind].
      * apply Nat.eqb_eq in E. subst A. split; [split|split].
        -- intros (t & Ht & _). discriminate Ht.
        -- intros (q' & B' & A & rest' & Hq & Hsh & HA). inversion Hq. subst q'.
           rewrite Hs in Hsh. inversion Hsh. subst. congruence.
        -- intros e He. discriminate He.
        -- intros q' Hq _. reflexivity.
      * apply Nat.eqb_neq in E. split; [split|split].
        -- intros _. exists q, B, A, rest. auto.
        -- intros _. eexists. split; [reflexivity|]. reflexivity.
        -- intros e He. discriminate He.
        -- intros q' Hq [Hn|Hn]; inversion Hq; subst q'; rewrite Hs in Hn;
             simpl in Hn; [lia | congruence].
  - split; [split|split].
    + intros (t & Ht & _). discriminate Ht.
    + intros (q & B & A & rest & Hq & _). discriminate Hq.
    + intros e' He. inversion He. reflexivity.
    + intros q Hq. discriminate Hq.
Qed.

Lemma deterministic_predict_succeeds_iff_witness :
  fst (Q_Net.predict Examples.raw_net Examples.obs_flat true Examples.w0)
  = Raise IndexError.
Proof.
  refine (proj2 (proj2 (deterministic_predict_succeeds_iff
            Examples.raw_net Examples.obs_flat Examples.w0))
            (mkTensor [4%nat] [1 # 10; 9 # 10; 9 # 10; 2 # 10]) _ _).
  - vm_compute. reflexivity.
  - left. vm_compute. lia.
Defined.

(** ** Helpers for the properties of [DQNPolicy] *)

Lemma same_arch_built (p : DQNPolicy.t) :
  same_arch p = true ->
  exists online target,
    DQNPolicy.q_net p = Some online /\ DQNPolicy.q_net_target p = Some target.
Proof.
  unfold same_arch.
  destruct (DQNPolicy.q_net p) as [on|]; [|discriminate].
  destruct (DQNPolicy.q_net_target p) as [tg|]; [|discriminate].
  intros _. exists on, tg. split; reflexivity.
Qed.

Lemma predict_set_epsilon_deterministic (net : Q_Net.t) (x : Q)
      (obs : Tensor) (w : World) :
  Q_Net.predict (Q_Net.set_epsilon net x) obs true w
  = Q_Net.predict net obs true w.
Proof. rewrite !predict_deterministic. reflexivity. Qed.

(** The greedy actions on a [B x A] matrix of Q-values: [B] indices
    below [A]. *)
Lemma greedy_actions_in_range (net : Q_Net.t) (obs : Tensor) (w : World)
      (B A : nat) (q : list Q) :
  Q_Net.forward net obs = Ok (mkTensor [B; A] q) ->
  (0 < A)%nat ->
  length q = (B * A)%nat ->
  exists acts,
    Q_Net.predict net obs true w = (Ok (mkTensor [B] (map inject_Z acts)), w)
    /\ length acts = B
    /\ Forall (fun a => (0 <= a < Z.of_nat A)%Z) acts.
Proof.
  intros Hf HA Hlen.
  exists (map (fun row => Z.of_nat (argmax_list row)) (chunks A B q)).
  split; [|split].
  - rewrite predict_deterministic, Hf. cbn [rbind].
    rewrite (argmax_matrix B q HA Hlen). cbn [rbind].
    unfold reshape, numel. cbn [shape data prod fold_right Z.eqb].
    rewrite Nat.mul_1_r, map_map. reflexivity.
  - rewrite length_map. apply chunks_count.
  - apply Forall_forall. intros a Ha. apply in_map_iff in Ha.
    destruct Ha as (row & <- & Hin).
    pose proof (chunks_length A B q Hlen row Hin) as Hr.
    assert (Hne : row <> []) by (intros ->; simpl in Hr; lia).
    destruct (argmax_list_spec Hne) as (Hi & _). lia.
Qed.

Lemma draws_torch_only (n : nat) (w : World) :
  torch_draws_only w (snd (draws n w)).
Proof. unfold torch_draws_only, draws. cbn. repeat split; try reflexivity. lia. Qed.

Lemma torch_draws_only_refl (w : World) : torch_draws_only w w.
Proof. unfold torch_draws_only. repeat split; try reflexivity. Qed.

Lemma torch_draws_only_trans (w1 w2 w3 : World) :
  torch_draws_only w1 w2 -> torch_draws_only w2 w3 -> torch_draws_only w1 w3.
Proof.
  unfold torch_draws_only.
  intros (A1 & A2 & A3 & A4 & A5 & A6) (B1 & B2 & B3 & B4 & B5 & B6).
  repeat split; try congruence. lia.
Qed.

Lemma Linear_init_torch_only (i o : nat) (w : World) :
  torch_draws_only w (snd (Linear_init i o w)).
Proof.
  unfold Linear_init, bind, ret. cbn [draws fst snd].
  unfold torch_draws_only. cbn. repeat split; try reflexivity. lia.
Qed.

Lemma mlp_layers_torch_only (a : list nat) (i o : nat) (f : Q -> Q) (w : World) :
  torch_draws_only w (snd (mlp_layers i a o f w)).
Proof.
  revert i w. induction a as [|h tl IH]; intros i w; cbn [mlp_layers].
  - destruct (Linear_init_eq i o w) as (wt & b & w' & H).
    rewrite (bind_Ok _ H). unfold ret. cbn [snd].
    pose proof (Linear_init_torch_only i o w) as Hl. rewrite H in Hl. exact Hl.
  - destruct (Linear_init_eq i h w) as (wt & b & w' & H).
    rewrite (bind_Ok _ H).
    pose proof (Linear_init_torch_only i h w) as Hl. rewrite H in Hl.
    cbn [snd] in Hl.
    destruct (mlp_layers_ok tl h o f w') as (ls & w'' & H').
    rewrite (bind_Ok _ H'). unfold ret. cbn [snd].
    specialize (IH h w'). rewrite H' in IH. cbn [snd] in IH.
    exact (torch_draws_only_trans _ _ _ Hl IH).
Qed.

(** Loading the state dict of one fresh stack into another fresh stack of
    the same dimensions gives the first stack back, layer for layer. *)
Lemma mlp_layers_assign (a : list nat) (i o : nat) (f : Q -> Q)
      (w1 w2 w1' w2' : World) (ls1 ls2 : list Layer) :
  mlp_layers i a o f w1 = (Ok ls1, w1') ->
  mlp_layers i a o f w2 = (Ok ls2, w2') ->
  forall (k : nat) (P : StateDict),
    (forall kv, In kv P -> (fst (fst kv) < k)%nat) ->
    assign_from k ls2 (P ++ state_dict_from k ls1) = ls1.
Proof.
  revert i w1 w2 w1' w2' ls1 ls2.
  induction a as [|h tl IH]; intros i w1 w2 w1' w2' ls1 ls2 H1 H2 k P HP;
    cbn [mlp_layers] in H1, H2.
  - destruct (Linear_init_eq i o w1) as (wt1 & b1 & u1 & E1).
    destruct (Linear_init_eq i o w2) as (wt2 & b2 & u2 & E2).
    rewrite (bind_Ok _ E1) in H1. rewrite (bind_Ok _ E2) in H2.
    unfold ret in H1, H2. inversion H1. inversion H2. subst.
    cbn [state_dict_from assign_from].
    rewrite !lookup_skip_prefix by exact HP.
    cbn [lookup]. rewrite Key_eqb_refl.
    replace (Key_eqb (k, Bias) (k, Weight)) with false
      by (unfold Key_eqb; simpl; rewrite Nat.eqb_refl; reflexivity).
    rewrite Key_eqb_refl. reflexivity.
  - destruct (Linear_init_eq i h w1) as (wt1 & b1 & u1 & E1).
    destruct (Linear_init_eq i h w2) as (wt2 & b2 & u2 & E2).
    rewrite (bind_Ok _ E1) in H1. rewrite (bind_Ok _ E2) in H2.
    destruct (mlp_layers_ok tl h o f u1) as (r1 & v1 & F1).
    destruct (mlp_layers_ok tl h o f u2) as (r2 & v2 & F2).
    rewrite (bind_Ok _ F1) in H1. rewrite (bind_Ok _ F2) in H2.
    unfold ret in H1, H2. inversion H1. inversion H2. subst.
    cbn [state_dict_from assign_from].
    rewrite !lookup_skip_prefix by exact HP.
    cbn [lookup]. rewrite Key_eqb_refl.
    replace (Key_eqb (k, Bias) (k, Weight)) with false
      by (unfold Key_eqb; simpl; rewrite Nat.eqb_refl; reflexivity).
    rewrite Key_eqb_refl.
    f_equal. f_equal.
    specialize (IH h u1 u2 _ _ r1 r2 F1 F2 (S (S k))
                   (P ++ [((k, Weight), mkTensor [h; i] wt1);
                          ((k, Bias), mkTensor [h] b1)])).
    rewrite <- app_assoc in IH. apply IH.
    intros kv Hin. apply in_app_or in Hin. destruct Hin as [Hin|Hin].
    + apply HP in Hin. lia.
    + destruct Hin as [<-|[<-|[]]]; simpl; lia.
Qed.

Lemma networks_config_of_online (god : Gym.Space -> Z) (eas : bool)
      (os sp : Gym.Space) (lr_schedule : Q -> Q) (arch : option (list Z))
      (dev : String.string) (sde : bool) (af : Q -> Q) (lsi eps : Q)
      (ni : bool) (w w' : World) (p : DQNPolicy.t) (online : Q_Net.t) :
  DQNPolicy.__init__ god eas os sp lr_schedule arch dev sde af lsi eps ni w
  = (Ok p, w') ->
  DQNPolicy.q_net p = Some online ->
  forall n, sp = Gym.Discrete n -> Q_Net.action_space online = Gym.Discrete n.
Proof.
  intros H Hon n Hn.
  destruct (@init_Ok_inv god eas os sp lr_schedule arch dev sde af lsi eps ni
              w w' p H)
    as (m & ls1 & ls2 & w1 & Hsp & Hi & Hm1 & Hm2 & Hlike & Hp).
  subst p. cbn in Hon. inversion Hon. subst online. cbn. congruence.
Qed.

(** ** [DQNPolicy]: epsilon *)

(** X5: [update_epsilon] checks no range.  After [update_epsilon(x)]
    with [x <= 0] the policy never explores: [q_forward] (the stochastic
    entry point) returns on every observation what the deterministic
    [q_predict] returns, and never samples the action space. *)
Theorem nonpositive_epsilon_never_explores :
  forall (p : DQNPolicy.t) (x : Q),
    same_arch p = true ->
    x <= 0 ->
    exists p',
      DQNPolicy.update_epsilon p x = Ok p'
      /\ forall (obs : Tensor) (w : World),
          fst (DQNPolicy.q_forward p' obs w)
          = fst (DQNPolicy.q_predict p' obs true w)
          /\ space_pos (snd (DQNPolicy.q_forward p' obs w)) = space_pos w.
Proof.
  intros p x Hp Hx.
  destruct (same_arch_built p Hp) as (on & tg & Hon & Htg).
  unfold DQNPolicy.update_epsilon. rewrite Htg.
  cbn [DQNPolicy.q_net DQNPolicy.set_q_net_target]. rewrite Hon.
  eexists. split; [reflexivity|]. intros obs w.
  unfold DQNPolicy.q_forward, DQNPolicy.predict, DQNPolicy._predict,
    DQNPolicy.q_predict.
  cbn [DQNPolicy.q_net DQNPolicy.set_q_net DQNPolicy.set_epsilon].
  rewrite predict_exploit.
  - split; reflexivity.
  - cbn [Q_Net.epsilon Q_Net.set_epsilon].
    apply Qle_trans with 0; [exact Hx | apply rand_range].
Qed.

Lemma nonpositive_epsilon_never_explores_witness :
  exists p',
    DQNPolicy.update_epsilon Examples.policy0 (- (1 # 2)) = Ok p'
    /\ fst (DQNPolicy.q_forward p' Examples.obs3 Examples.w0)
       = fst (DQNPolicy.q_predict p' Examples.obs3 true Examples.w0).
Proof.
  destruct (nonpositive_epsilon_never_explores Examples.policy0 (- (1 # 2))
              ltac:(vm_compute; reflexivity) ltac:(vm_compute; discriminate))
    as (p' & Hu & H).
  exists p'. split; [exact Hu|]. apply H.
Defined.

(** X6: [update_epsilon] changes the three epsilons and nothing else:
    the stored [net_args], the optimizer, the spaces and dimensions and
    the parameters of both networks are as before, and so is every
    deterministic prediction. *)
Theorem update_epsilon_frame :
  forall (p p' : DQNPolicy.t) (x : Q),
    DQNPolicy.update_epsilon p x = Ok p' ->
    DQNPolicy.net_args p' = DQNPolicy.net_args p
    /\ DQNPolicy.optimizer p' = DQNPolicy.optimizer p
    /\ DQNPolicy.action_space p' = DQNPolicy.action_space p
    /\ DQNPolicy.action_dim p' = DQNPolicy.action_dim p
    /\ DQNPolicy.parameters p' = DQNPolicy.parameters p
    /\ option_map Q_Net.state_dict (DQNPolicy.q_net p')
       = option_map Q_Net.state_dict (DQNPolicy.q_net p)
    /\ option_map Q_Net.state_dict (DQNPolicy.q_net_target p')
       = option_map Q_Net.state_dict (DQNPolicy.q_net_target p)
    /\ forall (obs : Tensor) (w : World),
        DQNPolicy.q_predict p' obs true w = DQNPolicy.q_predict p obs true w.
Proof.
  intros p p' x H. unfold DQNPolicy.update_epsilon in H.
  destruct (DQNPolicy.q_net_target p) as [tg|] eqn:Htg; [|discriminate H].
  cbn [DQNPolicy.q_net DQNPolicy.set_q_net_target] in H.
  destruct (DQNPolicy.q_net p) as [on|] eqn:Hon; [|discriminate H].
  inversion H. subst p'. clear H.
  unfold DQNPolicy.parameters, DQNPolicy.q_predict.
  cbn [DQNPolicy.net_args DQNPolicy.optimizer DQNPolicy.action_space
       DQNPolicy.action_dim DQNPolicy.q_net DQNPolicy.q_net_target
       DQNPolicy.set_epsilon DQNPolicy.set_q_net DQNPolicy.set_q_net_target].
  rewrite Hon, Htg.
  repeat split; try reflexivity;
    intros obs w; apply predict_set_epsilon_deterministic.
Qed.

Lemma update_epsilon_frame_witness :
  DQNPolicy.net_args Examples.policy1 = DQNPolicy.net_args Examples.policy0
  /\ DQNPolicy.optimizer Examples.policy1 = DQNPolicy.optimizer Examples.policy0.
Proof.
  destruct (update_epsilon_frame Examples.policy0 Examples.policy1 (1 # 2)
              ltac:(vm_compute; reflexivity)) as (H1 & H2 & _).
  split; assumption.
Defined.

(** X7: the last [update_epsilon] wins: [update_epsilon(y)] after
    [update_epsilon(x)] leaves the policy that [update_epsilon(y)] alone
    leaves, and repeating [update_epsilon(x)] changes nothing. *)
Theorem update_epsilon_last_write_wins :
  forall (p p1 : DQNPolicy.t) (x y : Q),
    DQNPolicy.update_epsilon p x = Ok p1 ->
    DQNPolicy.update_epsilon p1 y = DQNPolicy.update_epsilon p y
    /\ DQNPolicy.update_epsilon p1 x = Ok p1
    /\ exists p2, DQNPolicy.update_epsilon p y = Ok p2.
Proof.
  intros p p1 x y H. unfold DQNPolicy.update_epsilon in *.
  destruct (DQNPolicy.q_net_target p) as [tg|] eqn:Htg; [|discriminate H].
  cbn [DQNPolicy.q_net DQNPolicy.set_q_net_target] in *.
  destruct (DQNPolicy.q_net p) as [on|] eqn:Hon; [|discriminate H].
  inversion H. subst p1. clear H.
  cbn [DQNPolicy.q_net DQNPolicy.q_net_target DQNPolicy.set_epsilon
       DQNPolicy.set_q_net DQNPolicy.set_q_net_target].
  split; [reflexivity|]. split; [reflexivity|]. eexists. reflexivity.
Qed.

Lemma update_epsilon_last_write_wins_witness :
  DQNPolicy.update_epsilon Examples.policy1 (1 # 4)
  = DQNPolicy.update_epsilon Examples.policy0 (1 # 4).
Proof.
  exact (proj1 (update_epsilon_last_write_wins Examples.policy0 Examples.policy1
                  (1 # 2) (1 # 4) ltac:(vm_compute; reflexivity))).
Defined.

(** ** [DQNPolicy]: construction *)

(** X8: after a construction that completes, the target network is a
    copy of the online network in every respect: the same configuration
    and, layer for layer, the same weights; so it computes the same
    Q-values on every observation. *)
Theorem target_is_copy_of_online :
  forall (god : Gym.Space -> Z) (eas : bool) (os sp : Gym.Space)
         (lr_schedule : Q -> Q) (arch : option (list Z)) (dev : String.string)
         (sde : bool) (af : Q -> Q) (lsi eps : Q) (ni : bool)
         (w w' : World) (p : DQNPolicy.t),
    DQNPolicy.__init__ god eas os sp lr_schedule arch dev sde af lsi eps ni w
    = (Ok p, w') ->
    exists online,
      DQNPolicy.q_net p = Some online
      /\ DQNPolicy.q_net_target p = Some online
      /\ forall obs : Tensor,
          option_map (fun target => Q_Net.forward target obs)
                     (DQNPolicy.q_net_target p)
          = Some (Q_Net.forward online obs).
Proof.
  intros god eas os sp lr_schedule arch dev sde af lsi eps ni w w' p H.
  destruct (@init_Ok_inv god eas os sp lr_schedule arch dev sde af lsi eps ni
              w w' p H)
    as (n & ls1 & ls2 & w1 & -> & Hi & Hm1 & Hm2 & Hlike & ->).
  pose proof (@mlp_layers_assign _ _ _ _ _ _ _ _ _ _ Hm1 Hm2 0%nat []
                ltac:(intros kv [])) as Ha.
  cbn [app] in Ha. fold (Nn.state_dict ls1) in Ha.
  eexists. split; [reflexivity|].
  unfold built. cbn [DQNPolicy.q_net_target]. rewrite Ha.
  split; [reflexivity|]. intros obs. reflexivity.
Qed.

Lemma target_is_copy_of_online_witness :
  exists online,
    DQNPolicy.q_net Examples.policy0 = Some online
    /\ DQNPolicy.q_net_target Examples.policy0 = Some online.
Proof.
  destruct (target_is_copy_of_online Examples.obs_dim true (Gym.Box [3%nat])
              (Gym.Discrete 4) Examples.lr_const (Some [2%Z]) String.EmptyString
              false Examples.ident 0 (5 # 100) true Examples.w0
              (snd (Examples.policy (5 # 100) Examples.w0)) Examples.policy0
              ltac:(vm_compute; reflexivity))
    as (online & Ho & Ht & _).
  exists online. split; assumption.
Defined.

(** X9: a constructed policy and its networks agree on the configuration:
    the action space is [Discrete(n)] with [action_dim = n];
    [features_dim] is [get_obs_dim(observation_space)]; the hidden layers
    are the given [net_arch], or [256, 256] when it is omitted (the
    [64, 64] of [Q_Net] is never used, [net_args] always carries a list);
    epsilon, device and [normalize_images] are the constructor's. *)
Theorem networks_carry_policy_configuration :
  forall (god : Gym.Space -> Z) (eas : bool) (os sp : Gym.Space)
         (lr_schedule : Q -> Q) (arch : option (list Z)) (dev : String.string)
         (sde : bool) (af : Q -> Q) (lsi eps : Q) (ni : bool)
         (w w' : World) (p : DQNPolicy.t),
    DQNPolicy.__init__ god eas os sp lr_schedule arch dev sde af lsi eps ni w
    = (Ok p, w') ->
    exists online n,
      DQNPolicy.q_net p = Some online
      /\ sp = Gym.Discrete n
      /\ DQNPolicy.action_dim p = n
      /\ Q_Net.action_dim online = n
      /\ Q_Net.action_space online = Gym.Discrete n
      /\ DQNPolicy.features_dim p = god os
      /\ Q_Net.features_dim online = god os
      /\ DQNPolicy.net_arch p
         = match arch with None => [256; 256]%Z | Some a => a end
      /\ Q_Net.net_arch online = DQNPolicy.net_arch p
      /\ Q_Net.epsilon online = eps
      /\ Q_Net.device online = dev
      /\ Q_Net.normalize_images online = ni
      /\ Q_Net.observation_space online = os.
Proof.
  intros god eas os sp lr_schedule arch dev sde af lsi eps ni w w' p H.
  destruct (@init_Ok_inv god eas os sp lr_schedule arch dev sde af lsi eps ni
              w w' p H)
    as (n & ls1 & ls2 & w1 & -> & Hi & Hm1 & Hm2 & Hlike & ->).
  eexists. exists n. repeat split; reflexivity.
Qed.

Lemma networks_carry_policy_configuration_witness :
  exists online,
    DQNPolicy.q_net Examples.policy0 = Some online
    /\ Q_Net.action_dim online = 4%Z
    /\ Q_Net.net_arch online = [2%Z].
Proof.
  destruct (networks_carry_policy_configuration Examples.obs_dim true
              (Gym.Box [3%nat]) (Gym.Discrete 4) Examples.lr_const
              (Some [2%Z]) String.EmptyString false Examples.ident 0 (5 # 100)
              true Examples.w0 (snd (Examples.policy (5 # 100) Examples.w0))
              Examples.policy0 ltac:(vm_compute; reflexivity))
    as (online & n & Ho & Hn & Hpd & Had & Hrest).
  destruct Hrest as (_ & _ & _ & Hna & Hna' & _).
  exists online. split; [exact Ho|]. split.
  - rewrite Had. inversion Hn. reflexivity.
  - rewrite Hna'. exact Hna.
Defined.

(** X10: constructing a policy, whether it completes or raises, draws
    from the torch generator only: numpy's generator, which decides
    exploration, and the action space's, which supplies random actions,
    are left exactly as they were. *)
Theorem construction_draws_from_torch_only :
  forall (god : Gym.Space -> Z) (eas : bool) (os sp : Gym.Space)
         (lr_schedule : Q -> Q) (arch : option (list Z)) (dev : String.string)
         (sde : bool) (af : Q -> Q) (lsi eps : Q) (ni : bool) (w : World),
    torch_draws_only w
      (snd (DQNPolicy.__init__ god eas os sp lr_schedule arch dev sde af lsi
                               eps ni w)).
Proof.
  intros god eas os sp lr_schedule arch dev sde af lsi eps ni w.
  destruct sp as [n|sh].
  - destruct (init_discrete god eas os lr_schedule arch dev sde af lsi eps ni n w)
      as [[_ E]|[_ (ls1 & ls2 & w1 & w2 & Hm1 & Hm2 & _ & E)]];
      cbv zeta in E; rewrite E; cbn [snd].
    + apply torch_draws_only_refl.
    + apply torch_draws_only_trans with w1.
      * match type of Hm1 with
        | mlp_layers ?i ?a ?o ?f w = _ =>
            pose proof (mlp_layers_torch_only a i o f w) as Ht
        end.
        rewrite Hm1 in Ht. exact Ht.
      * match type of Hm2 with
        | mlp_layers ?i ?a ?o ?f w1 = _ =>
            pose proof (mlp_layers_torch_only a i o f w1) as Ht
        end.
        rewrite Hm2 in Ht. exact Ht.
  - rewrite init_box. apply torch_draws_only_refl.
Qed.

(** X11: on a constructed policy, for every batch of [B] observations
    whose flattened width is [features_dim], the deterministic
    [q_predict] (and [_predict]) returns [B] action indices, each within
    [0, n) for the action space [Discrete(n)], and draws nothing. *)
Theorem greedy_actions_of_constructed_policy_valid :
  forall (god : Gym.Space -> Z) (eas : bool) (os sp : Gym.Space)
         (lr_schedule : Q -> Q) (arch : option (list Z)) (dev : String.string)
         (sde : bool) (af : Q -> Q) (lsi eps : Q) (ni : bool)
         (w w' : World) (p : DQNPolicy.t)
         (obs : Tensor) (B d : nat) (rest : list nat) (w1 : World),
    DQNPolicy.__init__ god eas os sp lr_schedule arch dev sde af lsi eps ni w
    = (Ok p, w') ->
    shape obs = B :: d :: rest ->
    prod (d :: rest) = Z.to_nat (god os) ->
    exists n acts,
      sp = Gym.Discrete n
      /\ DQNPolicy.q_predict p obs true w1
         = (Ok (mkTensor [B] (map inject_Z acts)), w1)
      /\ DQNPolicy._predict p obs true w1 = DQNPolicy.q_predict p obs true w1
      /\ length acts = B
      /\ Forall (fun a => (0 <= a < n)%Z) acts.
Proof.
  intros god eas os sp lr_schedule arch dev sde af lsi eps ni w w' p
         obs B d rest w1 H Hsh Hw.
  destruct (@constructed_forward_matrix god eas os sp lr_schedule arch dev sde
              af lsi eps ni w w' p H)
    as (online & n & Hon & -> & Hn & Hf).
  destruct (Hf obs B d rest Hsh Hw) as (q & Hq & Hlen).
  destruct (@greedy_actions_in_range online obs w1 B (Z.to_nat n) q Hq
              ltac:(lia) Hlen) as (acts & Hp & Hl & Hall).
  exists n, acts. unfold DQNPolicy.q_predict, DQNPolicy._predict.
  rewrite Hon. repeat split; try assumption.
  rewrite Z2Nat.id in Hall by lia. exact Hall.
Qed.

Lemma greedy_actions_of_constructed_policy_valid_witness :
  exists acts,
    DQNPolicy.q_predict Examples.policy0 Examples.obs3 true Examples.w0
    = (Ok (mkTensor [2%nat] (map inject_Z acts)), Examples.w0)
    /\ Forall (fun a => (0 <= a < 4)%Z) acts.
Proof.
  destruct (greedy_actions_of_constructed_policy_valid Examples.obs_dim true
              (Gym.Box [3%nat]) (Gym.Discrete 4) Examples.lr_const
              (Some [2%Z]) String.EmptyString false Examples.ident 0 (5 # 100)
              true Examples.w0 (snd (Examples.policy (5 # 100) Examples.w0))
              Examples.policy0 Examples.obs3 2 3 [] Examples.w0
              ltac:(vm_compute; reflexivity) ltac:(reflexivity)
              ltac:(reflexivity))
    as (n & acts & Hn & Hp & _ & _ & Hall).
  inversion Hn. subst n. exists acts. split; assumption.
Defined.

(** X12: on a constructed policy and a batch of one observation of the
    configured width, the stochastic [q_forward] always returns exactly
    one action index within [0, n), whether the call explores or not and
    whatever epsilon is. *)
Theorem single_observation_action_always_valid :
  forall (god : Gym.Space -> Z) (eas : bool) (os sp : Gym.Space)
         (lr_schedule : Q -> Q) (arch : option (list Z)) (dev : String.string)
         (sde : bool) (af : Q -> Q) (lsi eps : Q) (ni : bool)
         (w w' : World) (p : DQNPolicy.t)
         (obs : Tensor) (d : nat) (rest : list nat) (w1 : World),
    DQNPolicy.__init__ god eas os sp lr_schedule arch dev sde af lsi eps ni w
    = (Ok p, w') ->
    shape obs = 1%nat :: d :: rest ->
    prod (d :: rest) = Z.to_nat (god os) ->
    exists n a,
      sp = Gym.Discrete n
      /\ (0 <= a < n)%Z
      /\ fst (DQNPolicy.q_forward p obs w1) = Ok (mkTensor [1%nat] [inject_Z a]).
Proof.
  intros god eas os sp lr_schedule arch dev sde af lsi eps ni w w' p
         obs d rest w1 H Hsh Hw.
  destruct (@constructed_forward_matrix god eas os sp lr_schedule arch dev sde
              af lsi eps ni w w' p H)
    as (online & n & Hon & Hsp & Hn & Hf).
  pose proof (@networks_config_of_online god eas os sp lr_schedule arch dev
                sde af lsi eps ni w w' p online H Hon) as Hspace.
  subst sp. exists n.
  unfold DQNPolicy.q_forward, DQNPolicy.predict, DQNPolicy._predict.
  rewrite Hon.
  destruct (Qlt_le_dec (Numpy.rand_value w1) (Q_Net.epsilon online)) as [Hu|Hu].
  - destruct (@predict_explore_batched online obs w1 n 1 d rest Hu
                (Hspace n eq_refl) Hn Hsh) as (_ & _ & H1).
    destruct (H1 eq_refl) as (a & Ha & E).
    exists a. auto.
  - rewrite (@predict_exploit online obs w1 Hu). cbn [fst].
    destruct (Hf obs 1%nat d rest Hsh Hw) as (q & Hq & Hlen).
    destruct (@greedy_actions_in_range online obs w1 1 (Z.to_nat n) q Hq
                ltac:(lia) Hlen) as (acts & Hp & Hl & Hall).
    rewrite Hp. cbn [fst].
    destruct acts as [|a [|a' tl]]; simpl in Hl; try lia.
    exists a. inversion Hall as [|? ? Ha _]. subst.
    rewrite Z2Nat.id in Ha by lia. auto.
Qed.

Lemma single_observation_action_always_valid_witness :
  exists a,
    (0 <= a < 4)%Z
    /\ fst (DQNPolicy.q_forward Examples.policy0 Examples.obs3_one Examples.w0)
       = Ok (mkTensor [1%nat] [inject_Z a]).
Proof.
  destruct (single_observation_action_always_valid Examples.obs_dim true
              (Gym.Box [3%nat]) (Gym.Discrete 4) Examples.lr_const
              (Some [2%Z]) String.EmptyString false Examples.ident 0 (5 # 100)
              true Examples.w0 (snd (Examples.policy (5 # 100) Examples.w0))
              Examples.policy0 Examples.obs3_one 3 [] Examples.w0
              ltac:(vm_compute; reflexivity) ltac:(reflexivity)
              ltac:(reflexivity))
    as (n & a & Hn & Ha & E).
  inversion Hn. subst n. exists a. split; assumption.
Defined.

(** X14: on a constructed policy [make_q_net] succeeds from any state of
    the generators, drawing from torch's only, and the network it returns
    has the online network's architecture: loading the online network's
    state dict into it succeeds and gives a copy of the online network. *)
Theorem make_q_net_gives_loadable_network :
  forall (god : Gym.Space -> Z) (eas : bool) (os sp : Gym.Space)
         (lr_schedule : Q -> Q) (arch : option (list Z)) (dev : String.string)
         (sde : bool) (af : Q -> Q) (lsi eps : Q) (ni : bool)
         (w w' : World) (p : DQNPolicy.t) (w2 : World),
    DQNPolicy.__init__ god eas os sp lr_schedule arch dev sde af lsi eps ni w
    = (Ok p, w') ->
    exists online net w3,
      DQNPolicy.q_net p = Some online
      /\ DQNPolicy.make_q_net eas p w2 = (Ok net, w3)
      /\ torch_draws_only w2 w3
      /\ layers_like (Q_Net.q_net net) (Q_Net.q_net online) = true
      /\ Q_Net.load_state_dict net (Q_Net.state_dict online) = Ok online.
Proof.
  intros god eas os sp lr_schedule arch dev sde af lsi eps ni w w' p w2 H.
  destruct (@init_Ok_inv god eas os sp lr_schedule arch dev sde af lsi eps ni
              w w' p H)
    as (n & ls1 & ls2 & w1 & -> & Hi & Hm1 & Hm2 & Hlike & ->).
  match goal with
  | |- context [built ?a ?b ?c ?d ?e ?f ?g ?h ?i ?j ?k ?l] =>
      destruct (@make_q_net_built eas (built a b c d e f g h i j k l)
                  os (god os) c dev af eps ni n w2 eq_refl Hi)
        as (ls & w3 & Hm & E)
  end.
  eexists. eexists. exists w3. split; [reflexivity|]. split; [exact E|].
  assert (Hl : layers_like ls ls1 = true)
    by (eapply mlp_layers_like; [exact Hm | exact Hm1]).
  split; [|split].
  - match type of Hm with
    | mlp_layers ?i ?a ?o ?f w2 = _ =>
        pose proof (mlp_layers_torch_only a i o f w2) as Ht
    end.
    rewrite Hm in Ht. exact Ht.
  - exact Hl.
  - unfold Q_Net.load_state_dict, Q_Net.state_dict, Nn.load_state_dict.
    cbn [Q_Net.q_net]. rewrite (loadable_like _ _ Hl). cbn [rbind].
    pose proof (@mlp_layers_assign _ _ _ _ _ _ _ _ _ _ Hm1 Hm 0%nat []
                  ltac:(intros kv [])) as Ha.
    cbn [app] in Ha. fold (Nn.state_dict ls1) in Ha.
    unfold Q_Net.set_q_net. cbn. rewrite Ha. reflexivity.
Qed.

Lemma make_q_net_gives_loadable_network_witness :
  exists online net w3,
    DQNPolicy.q_net Examples.policy0 = Some online
    /\ DQNPolicy.make_q_net true Examples.policy0 Examples.w0 = (Ok net, w3)
    /\ Q_Net.load_state_dict net (Q_Net.state_dict online) = Ok online.
Proof.
  destruct (make_q_net_gives_loadable_network Examples.obs_dim true
              (Gym.Box [3%nat]) (Gym.Discrete 4) Examples.lr_const
              (Some [2%Z]) String.EmptyString false Examples.ident 0 (5 # 100)
              true Examples.w0 (snd (Examples.policy (5 # 100) Examples.w0))
              Examples.policy0 Examples.w0 ltac:(vm_compute; reflexivity))
    as (online & net & w3 & Ho & Hm & _ & _ & Hl).
  exists online, net, w3. repeat split; assumption.
Defined.
